(** * libfranka [Robot] handle: session guard, read loops and command dispatch

    A shallow embedding of [src/robot.cpp].  The handle owns a mutex
    ([control_mutex_]) and a pointer to the implementation object ([impl_]).
    Every control or read entry point takes the mutex with [std::try_to_lock],
    throws when it is already owned, and releases it when the scope of the
    [std::unique_lock] is left.  Configuration commands go straight to
    [Impl::executeCommand].

    Effects are explicit: a session is a function on the implementation
    object and the state captured by the user callbacks, which also emits
    the list of calls it made; loops carry fuel, and a run that used up its
    fuel is reported as [Diverging] (the session is still inside its loop). *)

Set Warnings "-stdlib-vector".
From Stdlib Require Import String Bool Arith Lia PrimFloat.
From Stdlib Require Vector.
From stdpp Require Import base list.

Local Open Scope list_scope.

(** ** Values *)

(** [double] is IEEE binary64; [std::array<T, N>] is a vector of length [N]. *)
Definition double := PrimFloat.float.
Definition array (T : Type) (N : nat) := Vector.t T N.

(** [franka::ControllerMode].  The header that declares the enumeration is
    not part of the sources; [robot.cpp] names two enumerators and has a
    [default:] branch for every other value, which [kUnlisted] stands for. *)
Inductive ControllerMode :=
| kJointImpedance
| kCartesianImpedance
| kUnlisted (value : nat).

(** The [research_interface::robot] namespace: the controller mode a robot
    state reports, the mode a [SetControllerMode] request carries, and the
    commands [robot.cpp] dispatches with [executeCommand<T>(args...)]. *)
Module research_interface.

Inductive ControllerMode :=
| kJointImpedance
| kCartesianImpedance
| kOther (value : nat).

Definition ControllerMode_eqb (a b : ControllerMode) : bool :=
  match a, b with
  | kJointImpedance, kJointImpedance => true
  | kCartesianImpedance, kCartesianImpedance => true
  | kOther x, kOther y => Nat.eqb x y
  | _, _ => false
  end.

Module SetControllerMode.
Inductive ControllerMode :=
| kJointImpedance
| kCartesianImpedance.
End SetControllerMode.

Inductive Command :=
| SetControllerMode (mode : SetControllerMode.ControllerMode)
| SetCollisionBehavior
    (lower_torque_thresholds_acceleration : array double 7)
    (upper_torque_thresholds_acceleration : array double 7)
    (lower_torque_thresholds_nominal : array double 7)
    (upper_torque_thresholds_nominal : array double 7)
    (lower_force_thresholds_acceleration : array double 6)
    (upper_force_thresholds_acceleration : array double 6)
    (lower_force_thresholds_nominal : array double 6)
    (upper_force_thresholds_nominal : array double 6)
| SetJointImpedance (K_theta : array double 7)
| SetCartesianImpedance (K_x : array double 6)
| SetGuidingMode (guiding_mode : array bool 6) (elbow : bool)
| SetEEToK (EE_T_K : array double 16)
| SetFToEE (F_T_EE : array double 16)
| SetLoad (load_mass : double) (F_x_Cload : array double 3)
          (load_inertia : array double 9)
| AutomaticErrorRecovery.

End research_interface.

Module RI := research_interface.

(** The motion representations [MotionGeneratorLoop<T>] is instantiated at. *)
Inductive MotionGeneratorType :=
| JointPositions
| JointVelocities
| CartesianPose
| CartesianVelocities.

(** Modelled from the spec: what a torque or motion-generator callback
    returns ([control_types.h] is not part of the sources): the values of
    the chosen representation and the is-finished flag. *)
Record Finishable := {
  values : list double;
  motion_finished : bool
}.

Definition Torques := Finishable.
Definition Motion (T : MotionGeneratorType) := Finishable.

(** ** Exceptions and results *)

Inductive Exception :=
| InvalidOperationException (what : string)
| invalid_argument (what : string)
| ControlException (what : string)
| NetworkException (what : string)
| CommandException (what : string)
| NumericException (what : string)
| UserException (what : string).

(** The way a call ends: it returns, it throws, or it has not ended within
    the fuel it was given. *)
Inductive Result (A : Type) :=
| Returned (a : A)
| Thrown (e : Exception)
| Diverging.

Arguments Returned {A} a.
Arguments Thrown {A} e.
Arguments Diverging {A}.

Definition Result_map {A B : Type} (f : A -> B) (r : Result A) : Result B :=
  match r with
  | Returned a => Returned (f a)
  | Thrown e => Thrown e
  | Diverging => Diverging
  end.

Definition ended {A : Type} (r : Result A) : bool :=
  match r with
  | Diverging => false
  | _ => true
  end.

(** Modelled from the spec: the periodic command a loop hands to the channel
    ([sendCommand] of section 6; the loops' headers are not part of the
    sources): the motion target with the motion-finished flag of the
    callback, and the last-cycle flag of the terminal command (section 3). *)
Record RobotCommand := {
  motion_target : list double;
  finished_flag : bool;
  last_cycle : bool
}.

(** ** The collaborators of [robot.cpp]

    [Robot::Impl] ([robot_impl.h]), the two state representations and
    [convertRobotState] are declared outside [robot.cpp]; they are the
    interface the handle is written against.  [UserState] is whatever the
    callbacks capture.  [elapsed], [Impl_sendCommand] and
    [motion_mode_selection] are used by the loop modelled from the spec
    only.

    Modelled from the spec: [motion_mode_selection] says which controller
    modes a motion-generator session accepts and, for each, the mode the
    one-shot request carries and the reported mode that confirms it; the
    spec lists the modes as open (section 3), speaks of malformed
    selections without naming them (section 7), and the loop's header is
    not part of the sources. *)
Class Platform := {
  RawRobotState : Type;
  RobotState : Type;
  Duration : Type;
  Impl : Type;
  UserState : Type;
  controller_mode : RawRobotState -> RI.ControllerMode;
  elapsed : RawRobotState -> Duration;
  convertRobotState : RawRobotState -> RobotState;
  Impl_executeCommand : RI.Command -> Impl -> Result unit * Impl;
  Impl_updateWithoutConversion : Impl -> Result RawRobotState * Impl;
  Impl_readOnce : Impl -> Result RobotState * Impl;
  Impl_sendCommand : RobotCommand -> Impl -> Result unit * Impl;
  motion_mode_selection :
    ControllerMode
    -> option (RI.SetControllerMode.ControllerMode * RI.ControllerMode)
}.

Section Events.
Context `{Platform}.

(** The calls a session makes, each with the way it ended. *)
Inductive IOEvent :=
| IoExecuteCommand (c : RI.Command) (r : Result unit)
| IoUpdate (r : Result RawRobotState)
| IoReadOnce (r : Result RobotState)
| IoReadCallback (s : RobotState) (r : Result bool)
| IoMotionCallback (T : MotionGeneratorType) (s : RobotState) (d : Duration)
                   (r : Result (Motion T))
| IoTorqueCallback (s : RobotState) (d : Duration) (r : Result Torques)
| IoSendCommand (c : RobotCommand) (r : Result unit).

(** What is observed of a handle: the mutex changing hands, and the calls
    of the session that owns it. *)
Inductive Event :=
| EvLock
| EvUnlock
| EvIO (e : IOEvent).

(** What a session works on: [*impl_] and the callbacks' captures. *)
Record Env := {
  impl : Impl;
  user : UserState
}.

Definition Session (A : Type) := Env -> Result A * Env * list IOEvent.

Definition ret {A : Type} (a : A) : Session A :=
  fun e => (Returned a, e, []).

Definition throw {A : Type} (x : Exception) : Session A :=
  fun e => (Thrown x, e, []).

Definition diverge {A : Type} : Session A :=
  fun e => (Diverging, e, []).

Definition bind {A B : Type} (m : Session A) (k : A -> Session B) : Session B :=
  fun e =>
    let '(r, e1, t1) := m e in
    match r with
    | Returned a => let '(r2, e2, t2) := k a e1 in (r2, e2, t1 ++ t2)
    | Thrown x => (Thrown x, e1, t1)
    | Diverging => (Diverging, e1, t1)
    end.

(** [while (true) { ... }]: the body says whether to go on ([true]) or to
    [break] ([false]). *)
Fixpoint while_true (body : Session bool) (fuel : nat) : Session unit :=
  match fuel with
  | O => diverge
  | S fuel' =>
      bind body (fun again => if again then while_true body fuel' else ret tt)
  end.

(** Callbacks: [std::function<bool(const RobotState&)>] and
    [std::function<T(const RobotState&, franka::Duration)>]. *)
Definition ReadCallback := RobotState -> UserState -> Result bool * UserState.
Definition Callback (A : Type) :=
  RobotState -> Duration -> UserState -> Result A * UserState.

Definition call_read (read_callback : ReadCallback) (s : RobotState) : Session bool :=
  fun e =>
    let '(r, u) := read_callback s (user e) in
    (r, {| impl := impl e; user := u |}, [IoReadCallback s r]).

Definition call_motion (T : MotionGeneratorType) (cb : Callback (Motion T))
    (s : RobotState) (d : Duration) : Session (Motion T) :=
  fun e =>
    let '(r, u) := cb s d (user e) in
    (r, {| impl := impl e; user := u |}, [IoMotionCallback T s d r]).

(** [impl_->executeCommand<T>(args...)] *)
Definition executeCommand (c : RI.Command) : Session unit :=
  fun e =>
    let '(r, i) := Impl_executeCommand c (impl e) in
    (r, {| impl := i; user := user e |}, [IoExecuteCommand c r]).

(** [impl_->updateWithoutConversion()] *)
Definition updateWithoutConversion : Session RawRobotState :=
  fun e =>
    let '(r, i) := Impl_updateWithoutConversion (impl e) in
    (r, {| impl := i; user := user e |}, [IoUpdate r]).

(** Modelled from the spec: [Impl::update] ([robot_impl.h] is not part of
    the sources) receives one state and converts it to the externally
    visible representation (section 4.5). *)
Definition update : Session RobotState :=
  bind updateWithoutConversion (fun raw => ret (convertRobotState raw)).

(** Modelled from the spec: [sendCommand] of the channel (section 6). *)
Definition sendCommand (c : RobotCommand) : Session unit :=
  fun e =>
    let '(r, i) := Impl_sendCommand c (impl e) in
    (r, {| impl := i; user := user e |}, [IoSendCommand c r]).

(** [impl_->readOnce()] *)
Definition Impl_readOnce_call : Session RobotState :=
  fun e =>
    let '(r, i) := Impl_readOnce (impl e) in
    (r, {| impl := i; user := user e |}, [IoReadOnce r]).

End Events.

Declare Scope session_scope.
Delimit Scope session_scope with session.
Notation "x <- m ;; k" := (bind m (fun x => k))
  (at level 100, m at next level, right associativity) : session_scope.
Notation "m ;; k" := (bind m (fun _ => k))
  (at level 100, k at level 200, right associativity) : session_scope.
Local Open Scope session_scope.

(** ** The handle *)

Section Robot.
Context `{Platform}.

(** [franka::Robot]: [control_mutex_] is [true] while some
    [std::unique_lock] owns it. *)
Record Robot := {
  control_mutex_ : bool;
  impl_ : Impl
}.

(** [std::unique_lock<std::mutex> l(control_mutex_, std::try_to_lock)]:
    the first component is [l.owns_lock()].  The attempt is atomic and is
    taken to succeed exactly when the mutex is free. *)
Definition try_to_lock (r : Robot) : bool * Robot :=
  if control_mutex_ r then (false, r)
  else (true, {| control_mutex_ := true; impl_ := impl_ r |}).

(** The destructor of a [unique_lock] that owns the mutex. *)
Definition unlock (r : Robot) : Robot :=
  {| control_mutex_ := false; impl_ := impl_ r |}.

(** A call works on the handle and on what the callbacks capture. *)
Record World := {
  robot : Robot;
  captures : UserState
}.

Definition Entry (A : Type) := World -> Result A * World * list Event.

Definition Entry_map {A B : Type} (f : A -> B) (m : Entry A) : Entry B :=
  fun w => let '(r, w', t) := m w in (Result_map f r, w', t).

Definition busy_message : string :=
  "libfranka robot: Cannot perform this operation while another control or read operation is running.".

(** The opening of every control and read entry point:
<<
    std::unique_lock<std::mutex> l(control_mutex_, std::try_to_lock);
    if (!l.owns_lock()) { throw InvalidOperationException(...); }
    body
>>
    [l] is destroyed, and the mutex released, when [body] returns or
    throws; while [body] is still running the mutex stays owned. *)
Definition with_control_mutex {A : Type} (body : Session A) : Entry A :=
  fun w =>
    let '(owns_lock, r) := try_to_lock (robot w) in
    if negb owns_lock then
      (Thrown (InvalidOperationException busy_message), w, [])
    else
      let '(res, e, t) := body {| impl := impl_ r; user := captures w |} in
      let r' := {| control_mutex_ := control_mutex_ r; impl_ := impl e |} in
      if ended res then
        (res, {| robot := unlock r'; captures := user e |},
         EvLock :: map EvIO t ++ [EvUnlock])
      else
        (res, {| robot := r'; captures := user e |}, EvLock :: map EvIO t).

(** A member function that uses [impl_] and never names [control_mutex_]. *)
Definition on_impl {A : Type} (body : Session A) : Entry A :=
  fun w =>
    let '(res, e, t) :=
      body {| impl := impl_ (robot w); user := captures w |} in
    (res,
     {| robot := {| control_mutex_ := control_mutex_ (robot w);
                    impl_ := impl e |};
        captures := user e |},
     map EvIO t).

(** The [switch] of [control(ControllerMode, read_callback)]: the mode
    of the request and the mode expected in the robot states. *)
Definition select_mode (controller_mode : ControllerMode)
  : Session (RI.SetControllerMode.ControllerMode * RI.ControllerMode) :=
  match controller_mode with
  | kJointImpedance =>
      ret (RI.SetControllerMode.kJointImpedance, RI.kJointImpedance)
  | kCartesianImpedance =>
      ret (RI.SetControllerMode.kCartesianImpedance, RI.kCartesianImpedance)
  | kUnlisted _ =>
      throw (invalid_argument "Invalid controller mode given.")
  end.

(** The body of the [while (true)] of
    [control(ControllerMode, read_callback)]. *)
Definition mode_checked_cycle (state_controller_mode : RI.ControllerMode)
    (read_callback : ReadCallback) : Session bool :=
  robot_state <- updateWithoutConversion ;;
  if negb (RI.ControllerMode_eqb (controller_mode robot_state)
                                 state_controller_mode) then
    throw (ControlException "Controller mode changed.")
  else
    again <- call_read read_callback (convertRobotState robot_state) ;;
    if negb again then ret false else ret true.

(** [void Robot::control(ControllerMode, std::function<bool(const RobotState&)>)] *)
Definition control_mode_read (controller_mode : ControllerMode)
    (read_callback : ReadCallback) (fuel : nat) : Entry unit :=
  with_control_mutex (
    modes <- select_mode controller_mode ;;
    executeCommand (RI.SetControllerMode (fst modes)) ;;
    while_true (mode_checked_cycle (snd modes) read_callback) fuel).

(** [ControlLoop] and [MotionGeneratorLoop<T>] are declared in
    [control_loop.h] and [motion_generator_loop.h]: construction from
    [*impl_] and the callbacks followed by [loop()] is a session.
    [MotionGeneratorLoop2] is the constructor with two callbacks,
    [MotionGeneratorLoop1] the one with a callback and a mode. *)
Variable ControlLoop : Callback Torques -> nat -> Session unit.
Variable MotionGeneratorLoop2 :
  forall T : MotionGeneratorType,
    Callback Torques -> Callback (Motion T) -> nat -> Session unit.
Variable MotionGeneratorLoop1 :
  forall T : MotionGeneratorType,
    ControllerMode -> Callback (Motion T) -> nat -> Session unit.

(** [void Robot::control(std::function<Torques(const RobotState&, Duration)>)] *)
Definition control_torques (control_callback : Callback Torques)
    (fuel : nat) : Entry unit :=
  with_control_mutex (ControlLoop control_callback fuel).

(** The four overloads [control(control_callback, motion_generator_callback)],
    one for each [T]. *)
Definition control_torques_motion (T : MotionGeneratorType)
    (control_callback : Callback Torques)
    (motion_generator_callback : Callback (Motion T))
    (fuel : nat) : Entry unit :=
  with_control_mutex
    (MotionGeneratorLoop2 T control_callback
                                 motion_generator_callback fuel).

(** The four overloads [control(motion_generator_callback, controller_mode)],
    one for each [T]. *)
Definition control_motion_mode (T : MotionGeneratorType)
    (motion_generator_callback : Callback (Motion T))
    (controller_mode : ControllerMode) (fuel : nat) : Entry unit :=
  with_control_mutex
    (MotionGeneratorLoop1 T controller_mode
                              motion_generator_callback fuel).

(** The body of the [while (true)] of [read]. *)
Definition read_cycle (read_callback : ReadCallback) : Session bool :=
  robot_state <- update ;;
  again <- call_read read_callback robot_state ;;
  if negb again then ret false else ret true.

(** [void Robot::read(std::function<bool(const RobotState&)>)] *)
Definition read (read_callback : ReadCallback) (fuel : nat) : Entry unit :=
  with_control_mutex (while_true (read_cycle read_callback) fuel).

(** [RobotState Robot::readOnce()] *)
Definition readOnce : Entry RobotState :=
  with_control_mutex Impl_readOnce_call.

(** The public session entry points, with their arguments. *)
Inductive EntryPoint :=
| CallControlModeRead (controller_mode : ControllerMode)
                      (read_callback : ReadCallback)
| CallControlTorques (control_callback : Callback Torques)
| CallControlTorquesMotion (T : MotionGeneratorType)
                           (control_callback : Callback Torques)
                           (motion_generator_callback : Callback (Motion T))
| CallControlMotionMode (T : MotionGeneratorType)
                        (motion_generator_callback : Callback (Motion T))
                        (controller_mode : ControllerMode)
| CallRead (read_callback : ReadCallback)
| CallReadOnce.

(** What an entry point does between taking the mutex and releasing it. *)
Definition session_of (c : EntryPoint) (fuel : nat)
  : Session (option RobotState) :=
  match c with
  | CallControlModeRead controller_mode read_callback =>
      (modes <- select_mode controller_mode ;;
       executeCommand (RI.SetControllerMode (fst modes)) ;;
       while_true (mode_checked_cycle (snd modes) read_callback) fuel) ;;
      ret None
  | CallControlTorques cb => ControlLoop cb fuel ;; ret None
  | CallControlTorquesMotion T cb mg =>
      MotionGeneratorLoop2 T cb mg fuel ;; ret None
  | CallControlMotionMode T mg m =>
      MotionGeneratorLoop1 T m mg fuel ;; ret None
  | CallRead read_callback =>
      while_true (read_cycle read_callback) fuel ;; ret None
  | CallReadOnce => s <- Impl_readOnce_call ;; ret (Some s)
  end.

(** Calling an entry point; [void] is [None]. *)
Definition invoke (c : EntryPoint) (fuel : nat) : Entry (option RobotState) :=
  match c with
  | CallControlModeRead controller_mode read_callback =>
      Entry_map (fun _ => None)
                (control_mode_read controller_mode read_callback fuel)
  | CallControlTorques cb =>
      Entry_map (fun _ => None) (control_torques cb fuel)
  | CallControlTorquesMotion T cb mg =>
      Entry_map (fun _ => None) (control_torques_motion T cb mg fuel)
  | CallControlMotionMode T mg m =>
      Entry_map (fun _ => None) (control_motion_mode T mg m fuel)
  | CallRead read_callback =>
      Entry_map (fun _ => None) (read read_callback fuel)
  | CallReadOnce => Entry_map Some readOnce
  end.

End Robot.

Arguments invoke {_} _ _ _ _ _ _.
Arguments session_of {_} _ _ _ _ _.
Arguments control_torques {_} _ _ _ _.
Arguments control_torques_motion {_} _ _ _ _ _ _.
Arguments control_motion_mode {_} _ _ _ _ _ _.

(** ** Configuration commands *)

Section Configuration.
Context `{Platform}.

(** The eight-argument [Robot::setCollisionBehavior]. *)
Definition setCollisionBehavior
    (lower_torque_thresholds_acceleration : array double 7)
    (upper_torque_thresholds_acceleration : array double 7)
    (lower_torque_thresholds_nominal : array double 7)
    (upper_torque_thresholds_nominal : array double 7)
    (lower_force_thresholds_acceleration : array double 6)
    (upper_force_thresholds_acceleration : array double 6)
    (lower_force_thresholds_nominal : array double 6)
    (upper_force_thresholds_nominal : array double 6) : Entry unit :=
  on_impl (executeCommand (RI.SetCollisionBehavior
    lower_torque_thresholds_acceleration upper_torque_thresholds_acceleration
    lower_torque_thresholds_nominal upper_torque_thresholds_nominal
    lower_force_thresholds_acceleration upper_force_thresholds_acceleration
    lower_force_thresholds_nominal upper_force_thresholds_nominal)).

(** The four-argument [Robot::setCollisionBehavior]. *)
Definition setCollisionBehavior4
    (lower_torque_thresholds : array double 7)
    (upper_torque_thresholds : array double 7)
    (lower_force_thresholds : array double 6)
    (upper_force_thresholds : array double 6) : Entry unit :=
  on_impl (executeCommand (RI.SetCollisionBehavior
    lower_torque_thresholds upper_torque_thresholds lower_torque_thresholds
    upper_torque_thresholds lower_force_thresholds upper_force_thresholds
    lower_force_thresholds upper_force_thresholds)).

Definition setJointImpedance (K_theta : array double 7) : Entry unit :=
  on_impl (executeCommand (RI.SetJointImpedance K_theta)).

Definition setCartesianImpedance (K_x : array double 6) : Entry unit :=
  on_impl (executeCommand (RI.SetCartesianImpedance K_x)).

Definition setGuidingMode (guiding_mode : array bool 6) (elbow : bool)
  : Entry unit :=
  on_impl (executeCommand (RI.SetGuidingMode guiding_mode elbow)).

Definition setK (EE_T_K : array double 16) : Entry unit :=
  on_impl (executeCommand (RI.SetEEToK EE_T_K)).

Definition setEE (F_T_EE : array double 16) : Entry unit :=
  on_impl (executeCommand (RI.SetFToEE F_T_EE)).

Definition setLoad (load_mass : double) (F_x_Cload : array double 3)
    (load_inertia : array double 9) : Entry unit :=
  on_impl (executeCommand (RI.SetLoad load_mass F_x_Cload load_inertia)).

Definition automaticErrorRecovery : Entry unit :=
  on_impl (executeCommand RI.AutomaticErrorRecovery).

(** The configuration commands, with their arguments. *)
Inductive ConfigurationCall :=
| CallSetCollisionBehavior (lta uta ltn utn : array double 7)
                           (lfa ufa lfn ufn : array double 6)
| CallSetCollisionBehavior4 (lt ut : array double 7) (lf uf : array double 6)
| CallSetJointImpedance (K_theta : array double 7)
| CallSetCartesianImpedance (K_x : array double 6)
| CallSetGuidingMode (guiding_mode : array bool 6) (elbow : bool)
| CallSetK (EE_T_K : array double 16)
| CallSetEE (F_T_EE : array double 16)
| CallSetLoad (load_mass : double) (F_x_Cload : array double 3)
              (load_inertia : array double 9)
| CallAutomaticErrorRecovery.

Definition configure (c : ConfigurationCall) : Entry unit :=
  match c with
  | CallSetCollisionBehavior lta uta ltn utn lfa ufa lfn ufn =>
      setCollisionBehavior lta uta ltn utn lfa ufa lfn ufn
  | CallSetCollisionBehavior4 lt ut lf uf => setCollisionBehavior4 lt ut lf uf
  | CallSetJointImpedance K_theta => setJointImpedance K_theta
  | CallSetCartesianImpedance K_x => setCartesianImpedance K_x
  | CallSetGuidingMode guiding_mode elbow => setGuidingMode guiding_mode elbow
  | CallSetK EE_T_K => setK EE_T_K
  | CallSetEE F_T_EE => setEE F_T_EE
  | CallSetLoad load_mass F_x_Cload load_inertia =>
      setLoad load_mass F_x_Cload load_inertia
  | CallAutomaticErrorRecovery => automaticErrorRecovery
  end.

(** The request a configuration command hands to [executeCommand]. *)
Definition request_of (c : ConfigurationCall) : RI.Command :=
  match c with
  | CallSetCollisionBehavior lta uta ltn utn lfa ufa lfn ufn =>
      RI.SetCollisionBehavior lta uta ltn utn lfa ufa lfn ufn
  | CallSetCollisionBehavior4 lt ut lf uf =>
      RI.SetCollisionBehavior lt ut lt ut lf uf lf uf
  | CallSetJointImpedance K_theta => RI.SetJointImpedance K_theta
  | CallSetCartesianImpedance K_x => RI.SetCartesianImpedance K_x
  | CallSetGuidingMode guiding_mode elbow =>
      RI.SetGuidingMode guiding_mode elbow
  | CallSetK EE_T_K => RI.SetEEToK EE_T_K
  | CallSetEE F_T_EE => RI.SetFToEE F_T_EE
  | CallSetLoad load_mass F_x_Cload load_inertia =>
      RI.SetLoad load_mass F_x_Cload load_inertia
  | CallAutomaticErrorRecovery => RI.AutomaticErrorRecovery
  end.

End Configuration.

(** ** The motion-generator loop with a controller mode *)

Section MotionGeneratorLoop.
Context `{Platform}.

(** Modelled from the spec: one cycle of the periodic phase of a
    motion-generator session ([motion_generator_loop.h] is not part of
    the sources), sections 4.3 and 4.4: receive one state; a reported
    mode that differs from the requested one is a control fault (4.2);
    invoke the motion-generator callback with the state and the elapsed
    duration; a value that is not finite is a numeric fault and nothing
    is sent; send the command; after a command that carries the finished
    flag send the terminal command and leave the loop. *)
Definition motion_cycle (T : MotionGeneratorType)
    (state_controller_mode : RI.ControllerMode)
    (motion_callback : Callback (Motion T)) : Session bool :=
  robot_state <- updateWithoutConversion ;;
  if negb (RI.ControllerMode_eqb (controller_mode robot_state)
                                 state_controller_mode) then
    throw (ControlException "Controller mode changed.")
  else
    motion <- call_motion T motion_callback (convertRobotState robot_state)
                          (elapsed robot_state) ;;
    if negb (forallb PrimFloat.is_finite (values motion)) then
      throw (NumericException "Commanded value is infinite or NaN.")
    else
      sendCommand {| motion_target := values motion;
                     finished_flag := motion_finished motion;
                     last_cycle := false |} ;;
      if motion_finished motion then
        sendCommand {| motion_target := values motion;
                       finished_flag := true;
                       last_cycle := true |} ;;
        ret false
      else ret true.

(** Modelled from the spec: the selection of the controller mode of a
    motion-generator session.  A malformed selection is reported
    synchronously as an invalid-argument fault (section 7); which
    selections are well formed is the platform's [motion_mode_selection]. *)
Definition select_motion_mode (controller_mode : ControllerMode)
  : Session (RI.SetControllerMode.ControllerMode * RI.ControllerMode) :=
  match motion_mode_selection controller_mode with
  | Some modes => ret modes
  | None => throw (invalid_argument "Invalid controller mode given.")
  end.

(** Modelled from the spec: the session built from a motion-generator
    callback and a desired controller mode (section 4.4): a malformed
    mode selection is reported with no command sent (section 7); the
    one-shot mode-set command is issued; then the periodic phase runs,
    the reported mode checked in every cycle (section 4.2). *)
Definition MotionGeneratorLoop_mode (T : MotionGeneratorType)
    (controller_mode : ControllerMode)
    (motion_callback : Callback (Motion T)) (fuel : nat) : Session unit :=
  modes <- select_motion_mode controller_mode ;;
  executeCommand (RI.SetControllerMode (fst modes)) ;;
  while_true (motion_cycle T (snd modes) motion_callback) fuel.

End MotionGeneratorLoop.

(** ** Reading a run *)

Section Traces.
Context `{Platform}.

Definition outcome {A W T : Type} (run : Result A * W * T) : Result A :=
  fst (fst run).
Definition final {A W T : Type} (run : Result A * W * T) : W :=
  snd (fst run).
Definition trace {A W T : Type} (run : Result A * W * T) : T :=
  snd run.

Fixpoint count_events {E : Type} (p : E -> bool) (t : list E) : nat :=
  match t with
  | [] => 0
  | e :: t' => (if p e then 1 else 0) + count_events p t'
  end.

Definition is_lock (e : Event) : bool :=
  match e with EvLock => true | _ => false end.

Definition is_unlock (e : Event) : bool :=
  match e with EvUnlock => true | _ => false end.

(** The calls of a session, without the mutex events around them. *)
Fixpoint io_of (t : list Event) : list IOEvent :=
  match t with
  | [] => []
  | EvIO e :: t' => e :: io_of t'
  | _ :: t' => io_of t'
  end.

(** The robot states a session received, in order. *)
Fixpoint received (t : list IOEvent) : list RawRobotState :=
  match t with
  | [] => []
  | IoUpdate (Returned s) :: t' => s :: received t'
  | _ :: t' => received t'
  end.

(** The states the read predicate was called on, in order. *)
Fixpoint observed (t : list IOEvent) : list RobotState :=
  match t with
  | [] => []
  | IoReadCallback s _ :: t' => s :: observed t'
  | _ :: t' => observed t'
  end.

(** Commands that leave the host: one-shot requests and periodic
    commands. *)
Definition is_outgoing (e : IOEvent) : bool :=
  match e with
  | IoExecuteCommand _ _ => true
  | IoSendCommand _ _ => true
  | _ => false
  end.

Definition is_set_controller_mode (e : IOEvent) : bool :=
  match e with
  | IoExecuteCommand (RI.SetControllerMode _) _ => true
  | _ => false
  end.

Definition is_read_callback (e : IOEvent) : bool :=
  match e with
  | IoReadCallback _ _ => true
  | _ => false
  end.

(** A reported mode is the one requested. *)
Definition reported_as (requested : ControllerMode)
    (reported : RI.ControllerMode) : bool :=
  match requested, reported with
  | kJointImpedance, RI.kJointImpedance => true
  | kCartesianImpedance, RI.kCartesianImpedance => true
  | _, _ => false
  end.

Definition supported (m : ControllerMode) : bool :=
  match m with
  | kJointImpedance | kCartesianImpedance => true
  | kUnlisted _ => false
  end.

(** The mode the one-shot request carries for a supported mode. *)
Definition mode_request (m : ControllerMode)
  : option RI.SetControllerMode.ControllerMode :=
  match m with
  | kJointImpedance => Some RI.SetControllerMode.kJointImpedance
  | kCartesianImpedance => Some RI.SetControllerMode.kCartesianImpedance
  | kUnlisted _ => None
  end.

(** A run of [while_true] on [fuel]: complete cycles, closed by a cycle
    that does not ask for another one, or cut after [fuel] cycles. *)
Inductive loop_trace (cycle : list IOEvent -> Result bool -> Prop)
  : nat -> list IOEvent -> Result unit -> Prop :=
| loop_cut : loop_trace cycle 0 [] Diverging
| loop_break fuel t :
    cycle t (Returned false) ->
    loop_trace cycle (S fuel) t (Returned tt)
| loop_throw fuel t x :
    cycle t (Thrown x) ->
    loop_trace cycle (S fuel) t (Thrown x)
| loop_stuck fuel t :
    cycle t Diverging ->
    loop_trace cycle (S fuel) t Diverging
| loop_again fuel t t' r :
    cycle t (Returned true) ->
    loop_trace cycle fuel t' r ->
    loop_trace cycle (S fuel) (t ++ t') r.

(** One cycle of a read session: a state is received, converted, and
    handed to the predicate once; the predicate's answer decides. *)
Inductive read_cycle_trace : list IOEvent -> Result bool -> Prop :=
| rc_no_state x : read_cycle_trace [IoUpdate (Thrown x)] (Thrown x)
| rc_waiting : read_cycle_trace [IoUpdate Diverging] Diverging
| rc_called raw r :
    read_cycle_trace
      [IoUpdate (Returned raw); IoReadCallback (convertRobotState raw) r] r.

(** One cycle of the mode-checked session. *)
Inductive mode_cycle_trace (expected : RI.ControllerMode)
  : list IOEvent -> Result bool -> Prop :=
| mc_no_state x : mode_cycle_trace expected [IoUpdate (Thrown x)] (Thrown x)
| mc_waiting : mode_cycle_trace expected [IoUpdate Diverging] Diverging
| mc_mismatch raw :
    RI.ControllerMode_eqb (controller_mode raw) expected = false ->
    mode_cycle_trace expected [IoUpdate (Returned raw)]
      (Thrown (ControlException "Controller mode changed."))
| mc_called raw r :
    RI.ControllerMode_eqb (controller_mode raw) expected = true ->
    mode_cycle_trace expected
      [IoUpdate (Returned raw); IoReadCallback (convertRobotState raw) r] r.

(** One cycle of the periodic phase of a motion-generator session: after
    a state of the expected mode, only callbacks and periodic commands. *)
Inductive motion_cycle_trace (expected : RI.ControllerMode)
  : list IOEvent -> Result bool -> Prop :=
| mg_no_state x :
    motion_cycle_trace expected [IoUpdate (Thrown x)] (Thrown x)
| mg_waiting : motion_cycle_trace expected [IoUpdate Diverging] Diverging
| mg_mismatch raw :
    RI.ControllerMode_eqb (controller_mode raw) expected = false ->
    motion_cycle_trace expected [IoUpdate (Returned raw)]
      (Thrown (ControlException "Controller mode changed."))
| mg_cycle raw rest r :
    RI.ControllerMode_eqb (controller_mode raw) expected = true ->
    received rest = [] ->
    count_events is_set_controller_mode rest = 0 ->
    motion_cycle_trace expected (IoUpdate (Returned raw) :: rest) r.



(** What a session on the handle of [w] works on: [*impl_] and the
    callbacks' captures, as they stand in [w]. *)
Definition env_of (w : World) : Env :=
  {| impl := impl_ (robot w); user := captures w |}.

(** A run of [while (true)] on [fuel] cycles at most, from the
    environment it starts in to the one it leaves: each cycle is related
    by [cycle] to the environment it starts in, and starts in the
    environment the one before left; a cycle is followed by another one
    exactly when it returned [true]. *)
Inductive cycles_run (cycle : Env -> Result bool * Env * list IOEvent -> Prop)
  : nat -> Env -> list IOEvent -> Result unit -> Env -> Prop :=
| run_cut e : cycles_run cycle 0 e [] Diverging e
| run_break fuel e e' t :
    cycle e (Returned false, e', t) ->
    cycles_run cycle (S fuel) e t (Returned tt) e'
| run_throw fuel e e' t x :
    cycle e (Thrown x, e', t) ->
    cycles_run cycle (S fuel) e t (Thrown x) e'
| run_stuck fuel e e' t :
    cycle e (Diverging, e', t) ->
    cycles_run cycle (S fuel) e t Diverging e'
| run_next fuel e e1 e' t t' r :
    cycle e (Returned true, e1, t) ->
    cycles_run cycle fuel e1 t' r e' ->
    cycles_run cycle (S fuel) e (t ++ t') r e'.

(** One cycle of a read session started in [e]: the state is the one
    [Impl::updateWithoutConversion] gives on the implementation object of
    [e]; when there is one, the predicate is called once, on its
    conversion and on the captures of [e], and its answer is the cycle's. *)
Inductive read_cycle_step (read_callback : ReadCallback) (e : Env)
  : Result bool * Env * list IOEvent -> Prop :=
| rs_no_state x i :
    Impl_updateWithoutConversion (impl e) = (Thrown x, i) ->
    read_cycle_step read_callback e
      (Thrown x, {| impl := i; user := user e |}, [IoUpdate (Thrown x)])
| rs_waiting i :
    Impl_updateWithoutConversion (impl e) = (Diverging, i) ->
    read_cycle_step read_callback e
      (Diverging, {| impl := i; user := user e |}, [IoUpdate Diverging])
| rs_called raw i r u :
    Impl_updateWithoutConversion (impl e) = (Returned raw, i) ->
    read_callback (convertRobotState raw) (user e) = (r, u) ->
    read_cycle_step read_callback e
      (r, {| impl := i; user := u |},
       [IoUpdate (Returned raw); IoReadCallback (convertRobotState raw) r]).




End Traces.

(** ** Threads on one handle

    Several threads call entry points of the same handle.  The steps that
    interleave are the ones on [control_mutex_]: [try_to_lock], which is
    atomic and either takes the free mutex or fails, and the release at the
    end of the owner's session.  Between the two only the owner runs on
    [*impl_]. *)

Section Threads.
Context `{Platform}.
Variable ControlLoop : Callback Torques -> nat -> Session unit.
Variable MotionGeneratorLoop2 :
  forall T : MotionGeneratorType,
    Callback Torques -> Callback (Motion T) -> nat -> Session unit.
Variable MotionGeneratorLoop1 :
  forall T : MotionGeneratorType,
    ControllerMode -> Callback (Motion T) -> nat -> Session unit.

Inductive ThreadState :=
| Pending (c : EntryPoint)
| Active (c : EntryPoint)
| Finished (r : Result (option RobotState)).

Record System := {
  shared : World;
  threads : list ThreadState
}.

(** Thread [i] takes its next step: a pending call executes
    [try_to_lock] and either owns the mutex or throws; the owner runs its
    session and, once that has ended, releases the mutex. *)
Definition thread_step (i fuel : nat) (s : System) : System :=
  match threads s !! i with
  | Some (Pending c) =>
      let '(owns_lock, r) := try_to_lock (robot (shared s)) in
      if negb owns_lock then
        {| shared := shared s;
           threads :=
             <[i := Finished (Thrown (InvalidOperationException busy_message))]>
               (threads s) |}
      else
        {| shared := {| robot := r; captures := captures (shared s) |};
           threads := <[i := Active c]> (threads s) |}
  | Some (Active c) =>
      let '(res, e, _) :=
        session_of ControlLoop MotionGeneratorLoop2
                   MotionGeneratorLoop1 c fuel
                   {| impl := impl_ (robot (shared s));
                      user := captures (shared s) |} in
      if ended res then
        {| shared :=
             {| robot :=
                  unlock {| control_mutex_ := control_mutex_ (robot (shared s));
                            impl_ := impl e |};
                captures := user e |};
           threads := <[i := Finished res]> (threads s) |}
      else s
  | _ => s
  end.

(** A schedule names, step by step, the thread that moves and the fuel
    its session is run on. *)
Fixpoint run_schedule (schedule : list (nat * nat)) (s : System) : System :=
  match schedule with
  | [] => s
  | (i, fuel) :: rest => run_schedule rest (thread_step i fuel s)
  end.

Definition is_pending (t : ThreadState) : bool :=
  match t with Pending _ => true | _ => false end.

Definition is_active (t : ThreadState) : bool :=
  match t with Active _ => true | _ => false end.

Definition is_busy_failure (t : ThreadState) : bool :=
  match t with
  | Finished (Thrown (InvalidOperationException _)) => true
  | _ => false
  end.

(** The mutex is owned exactly when one thread is inside a session. *)
Definition guard_invariant (s : System) : Prop :=
  count_events is_active (threads s)
  = (if control_mutex_ (robot (shared s)) then 1 else 0).

(** [calls] are issued on handle [w], none of them started yet. *)
Definition spawn (w : World) (calls : list EntryPoint) : System :=
  {| shared := w; threads := map Pending calls |}.

End Threads.

(** ** A replayed robot

    An instance of the interface to run the handle on: the implementation
    object holds the states still to come, accepts every command, and
    reports a timeout when no state is left.  A raw state is a reported
    mode and a sample number; the callbacks capture a counter. *)
Module Replay.

(** A robot whose motion-generator sessions accept the two impedance
    modes. *)
Definition two_modes (m : ControllerMode)
  : option (RI.SetControllerMode.ControllerMode * RI.ControllerMode) :=
  match m with
  | kJointImpedance =>
      Some (RI.SetControllerMode.kJointImpedance, RI.kJointImpedance)
  | kCartesianImpedance =>
      Some (RI.SetControllerMode.kCartesianImpedance, RI.kCartesianImpedance)
  | kUnlisted _ => None
  end.

Definition update_replay (i : list (RI.ControllerMode * nat))
  : Result (RI.ControllerMode * nat) * list (RI.ControllerMode * nat) :=
  match i with
  | [] => (Thrown (NetworkException "timeout"), [])
  | s :: rest => (Returned s, rest)
  end.

#[export] Instance platform : Platform := {|
  RawRobotState := RI.ControllerMode * nat;
  RobotState := nat;
  Duration := nat;
  Impl := list (RI.ControllerMode * nat);
  UserState := nat;
  controller_mode := fst;
  elapsed := fun _ => 1;
  convertRobotState := snd;
  Impl_executeCommand := fun _ i => (Returned tt, i);
  Impl_updateWithoutConversion := update_replay;
  Impl_readOnce := fun i => let '(r, i') := update_replay i in
                            (Result_map snd r, i');
  Impl_sendCommand := fun _ i => (Returned tt, i);
  motion_mode_selection := two_modes
|}.

(** A read predicate that goes on while the sample is below [n], and
    counts its calls. *)
Definition below (n : nat) : ReadCallback :=
  fun s u => (Returned (s <? n), S u).

(** A read predicate that throws. *)
Definition failing : ReadCallback :=
  fun s u => (Thrown (UserException "callback failed"), S u).


(** Loops for the torque entry points: they return at once. *)
Definition idle_ControlLoop : Callback Torques -> nat -> Session unit :=
  fun _ _ => ret tt.
Definition idle_MotionGeneratorLoop (T : MotionGeneratorType)
  : Callback Torques -> Callback (Motion T) -> nat -> Session unit :=
  fun _ _ _ => ret tt.

Definition handle (locked : bool) (script : list (RI.ControllerMode * nat))
  : World :=
  {| robot := {| control_mutex_ := locked; impl_ := script |};
     captures := 0 |}.

Definition JI (n : nat) : RI.ControllerMode * nat := (RI.kJointImpedance, n).
Definition CI (n : nat) : RI.ControllerMode * nat :=
  (RI.kCartesianImpedance, n).

(** Four states to come, the third one in another mode. *)
Definition script : list (RI.ControllerMode * nat) := [JI 0; JI 1; CI 2; JI 3].

(** The handle while a [read] that has made one cycle is still running. *)
Definition mid_session : World :=
  final (read (below 5) 1 (handle false script)).

Definition stiffness : array double 7 := Vector.const 1.5%float 7.


End Replay.

(** ** A robot that rejects every command

    The replayed robot, except that [executeCommand] throws. *)
Module Rejecting.

#[export] Instance platform : Platform := {|
  RawRobotState := RI.ControllerMode * nat;
  RobotState := nat;
  Duration := nat;
  Impl := list (RI.ControllerMode * nat);
  UserState := nat;
  controller_mode := fst;
  elapsed := fun _ => 1;
  convertRobotState := snd;
  Impl_executeCommand :=
    fun _ i => (Thrown (CommandException "command rejected"), i);
  Impl_updateWithoutConversion := Replay.update_replay;
  Impl_readOnce := fun i => let '(r, i') := Replay.update_replay i in
                            (Result_map snd r, i');
  Impl_sendCommand := fun _ i => (Returned tt, i);
  motion_mode_selection := Replay.two_modes
|}.

Definition handle (locked : bool) (script : list (RI.ControllerMode * nat))
  : World :=
  {| robot := {| control_mutex_ := locked; impl_ := script |};
     captures := 0 |}.

Definition below (n : nat) : ReadCallback :=
  fun s u => (Returned (s <? n), S u).

End Rejecting.

(** ** Calls that threw, and calls made one after the other *)

Section Sequences.
Context `{Platform}.

(** The exception a call ended with, when it threw. *)
Definition threw (e : IOEvent) : option Exception :=
  match e with
  | IoExecuteCommand _ (Thrown x) => Some x
  | IoUpdate (Thrown x) => Some x
  | IoReadOnce (Thrown x) => Some x
  | IoReadCallback _ (Thrown x) => Some x
  | IoMotionCallback _ _ _ (Thrown x) => Some x
  | IoTorqueCallback _ _ (Thrown x) => Some x
  | IoSendCommand _ (Thrown x) => Some x
  | _ => None
  end.

(** The received states that report the requested mode. *)
Fixpoint matching (m : ControllerMode) (states : list RawRobotState)
  : list RawRobotState :=
  match states with
  | [] => []
  | s :: states' =>
      if reported_as m (controller_mode s) then s :: matching m states'
      else matching m states'
  end.

(** Configuration commands called one after the other, the caller going
    on whether or not a call threw: the way each call ended, the handle
    after the last one, and everything that was observed. *)
Fixpoint configure_each (cs : list ConfigurationCall) (w : World)
  : list (Result unit) * World * list Event :=
  match cs with
  | [] => ([], w, [])
  | c :: cs' =>
      let '(r, w1, t1) := configure c w in
      let '(rs, w2, t2) := configure_each cs' w1 in
      (r :: rs, w2, t1 ++ t2)
  end.

(** What [executeCommand] is asked, call by call. *)
Fixpoint requests (t : list Event) : list RI.Command :=
  match t with
  | [] => []
  | EvIO (IoExecuteCommand c _) :: t' => c :: requests t'
  | _ :: t' => requests t'
  end.

End Sequences.

(** ** Moving a handle

    [Robot] objects live at addresses; after a move the [impl_] of the
    source is null, which [Robot] (a handle with a live implementation)
    does not represent, so an object carries an optional [impl_]. *)

Section Moves.
Context `{Platform}.

Record Object := {
  object_mutex : bool;
  object_impl : option Impl
}.

Definition object_of (r : Robot) : Object :=
  {| object_mutex := control_mutex_ r; object_impl := Some (impl_ r) |}.

Definition robot_of (o : Object) : option Robot :=
  match object_impl o with
  | Some i => Some {| control_mutex_ := object_mutex o; impl_ := i |}
  | None => None
  end.

(** [Robot::Robot(Robot&& other) noexcept]: the [std::lock_guard] waits for
    the mutex of [other]; with it, [impl_] is move-constructed from
    [other.impl_], which becomes null; the guard is released on return.
    The new object, with a fresh mutex, is placed at the next free
    address, which is returned.  [None]: [other] is no object. *)
Definition move_construct (other : nat) (mem : list Object)
  : option (Result nat * list Object) :=
  match mem !! other with
  | None => None
  | Some o =>
      if object_mutex o then Some (Diverging, mem)
      else
        Some (Returned (length mem),
              <[other := {| object_mutex := false; object_impl := None |}]> mem
              ++ [{| object_mutex := false; object_impl := object_impl o |}])
  end.

(** [Robot& Robot::operator=(Robot&& other) noexcept]: nothing is done
    when [&other == this]; otherwise [std::lock] waits for both mutexes,
    [impl_] takes [other.impl_] (the implementation it held is destroyed)
    and [other.impl_] becomes null; both mutexes are released on return. *)
Definition move_assign (this other : nat) (mem : list Object)
  : option (Result unit * list Object) :=
  match mem !! this, mem !! other with
  | Some t, Some o =>
      if Nat.eqb other this then Some (Returned tt, mem)
      else if object_mutex t || object_mutex o then Some (Diverging, mem)
      else
        Some (Returned tt,
              <[this := {| object_mutex := false;
                           object_impl := object_impl o |}]>
                (<[other := {| object_mutex := false;
                               object_impl := None |}]> mem))
  | _, _ => None
  end.

(** The objects whose implementation satisfies [p]. *)
Definition owns (p : Impl -> bool) (o : Object) : bool :=
  match object_impl o with
  | Some i => p i
  | None => false
  end.

End Moves.

(** * Properties *)

(** ** The session guard *)

Section GuardFacts.
Context `{Platform}.

Lemma with_control_mutex_busy {A : Type} (body : Session A) (w : World) :
  control_mutex_ (robot w) = true ->
  with_control_mutex body w
  = (Thrown (InvalidOperationException busy_message), w, []).
Proof.
  intros Hheld. unfold with_control_mutex, try_to_lock.
  rewrite Hheld. reflexivity.
Qed.

Lemma with_control_mutex_free {A : Type} (body : Session A) (w : World) :
  control_mutex_ (robot w) = false ->
  with_control_mutex body w
  = (let '(res, e, t) :=
       body {| impl := impl_ (robot w); user := captures w |} in
     if ended res then
       (res,
        {| robot := {| control_mutex_ := false; impl_ := impl e |};
           captures := user e |},
        EvLock :: map EvIO t ++ [EvUnlock])
     else
       (res,
        {| robot := {| control_mutex_ := true; impl_ := impl e |};
           captures := user e |},
        EvLock :: map EvIO t)).
Proof.
  intros Hfree. unfold with_control_mutex, try_to_lock.
  rewrite Hfree. cbn.
  destruct (body _) as [[res e] t]. destruct (ended res); reflexivity.
Qed.

Lemma Entry_map_with_control_mutex {A B : Type} (f : A -> B)
    (body : Session A) (w : World) :
  Entry_map f (with_control_mutex body) w
  = with_control_mutex (x <- body ;; ret (f x)) w.
Proof.
  unfold Entry_map, with_control_mutex.
  destruct (try_to_lock (robot w)) as [owns r].
  destruct (negb owns); [reflexivity|].
  unfold bind, ret.
  destruct (body _) as [[res e] t].
  destruct res; cbn; rewrite ?app_nil_r; reflexivity.
Qed.

Lemma count_events_app {E : Type} (p : E -> bool) (t1 t2 : list E) :
  count_events p (t1 ++ t2) = count_events p t1 + count_events p t2.
Proof. induction t1 as [|e t1 IH]; cbn; [reflexivity|]. rewrite IH. lia. Qed.

Lemma count_lock_io (t : list IOEvent) : count_events is_lock (map EvIO t) = 0.
Proof. induction t; cbn; auto. Qed.

Lemma count_unlock_io (t : list IOEvent) :
  count_events is_unlock (map EvIO t) = 0.
Proof. induction t; cbn; auto. Qed.

Lemma io_of_app (t1 t2 : list Event) : io_of (t1 ++ t2) = io_of t1 ++ io_of t2.
Proof.
  induction t1 as [|e t1 IH]; cbn; [reflexivity|].
  destruct e; cbn; rewrite IH; reflexivity.
Qed.

Lemma io_of_map (t : list IOEvent) : io_of (map EvIO t) = t.
Proof. induction t as [|e t IH]; cbn; [reflexivity|]. now rewrite IH. Qed.

Section Loops.
Variable ControlLoop : Callback Torques -> nat -> Session unit.
Variable MotionGeneratorLoop2 :
  forall T : MotionGeneratorType,
    Callback Torques -> Callback (Motion T) -> nat -> Session unit.
Variable MotionGeneratorLoop1 :
  forall T : MotionGeneratorType,
    ControllerMode -> Callback (Motion T) -> nat -> Session unit.

Local Abbreviation invoke' :=
  (invoke ControlLoop MotionGeneratorLoop2 MotionGeneratorLoop1).
Local Abbreviation session_of' :=
  (session_of ControlLoop MotionGeneratorLoop2 MotionGeneratorLoop1).

(** Every entry point is its session run under the mutex. *)
Lemma invoke_session_of (c : EntryPoint) (fuel : nat) (w : World) :
  invoke' c fuel w = with_control_mutex (session_of' c fuel) w.
Proof.
  destruct c; cbn [invoke session_of];
    unfold control_mode_read, control_torques, control_torques_motion,
           control_motion_mode, read, readOnce;
    apply Entry_map_with_control_mutex.
Qed.

(** C1.  Whatever the entry point (each [control] overload, [read],
    [readOnce]) and its arguments: when the mutex of the handle is
    already owned, the call throws [InvalidOperationException] for
    every amount of fuel, zero included, so it never waits; the handle
    and the callbacks' captures are unchanged, and the call made no
    call at all: no command sent, no state received. *)
Theorem busy_handle_rejects_every_entry_point
    (c : EntryPoint) (fuel : nat) (w : World) :
  control_mutex_ (robot w) = true ->
  invoke' c fuel w
  = (Thrown (InvalidOperationException busy_message), w, []).
Proof.
  intros Hheld. rewrite invoke_session_of.
  apply with_control_mutex_busy, Hheld.
Qed.

(** C2.  Whatever the entry point and the way its session ends (it
    returns, or it throws, whichever exception): when the call took
    the free mutex and has ended, the mutex is free again, the next
    [try_to_lock] succeeds, and the mutex was taken once and released
    once, the release being the last thing the call did. *)
Theorem guard_released_once_on_every_exit
    (c : EntryPoint) (fuel : nat) (w : World) :
  control_mutex_ (robot w) = false ->
  ended (outcome (invoke' c fuel w)) = true ->
  control_mutex_ (robot (final (invoke' c fuel w))) = false
  /\ fst (try_to_lock (robot (final (invoke' c fuel w)))) = true
  /\ count_events is_lock (trace (invoke' c fuel w)) = 1
  /\ count_events is_unlock (trace (invoke' c fuel w)) = 1
  /\ exists ios, trace (invoke' c fuel w) = EvLock :: map EvIO ios ++ [EvUnlock].
Proof.
  intros Hfree. rewrite invoke_session_of, (with_control_mutex_free _ _ Hfree).
  destruct (session_of' c fuel _) as [[res e] t].
  destruct (ended res) eqn:Hres; unfold outcome, final, trace; cbn;
    [intros _ | rewrite Hres; discriminate].
  rewrite !count_events_app, count_lock_io, count_unlock_io. cbn.
  repeat split; eauto.
Qed.

(** While a session has not ended its call still owns the mutex and
    has not released it. *)
Lemma guard_held_while_running (c : EntryPoint) (fuel : nat) (w : World) :
  control_mutex_ (robot w) = false ->
  outcome (invoke' c fuel w) = Diverging ->
  control_mutex_ (robot (final (invoke' c fuel w))) = true
  /\ count_events is_unlock (trace (invoke' c fuel w)) = 0.
Proof.
  intros Hfree. rewrite invoke_session_of, (with_control_mutex_free _ _ Hfree).
  destruct (session_of' c fuel _) as [[res e] t].
  unfold outcome, final, trace.
  destruct res; cbn; try discriminate. intros _.
  rewrite count_unlock_io. auto.
Qed.

End Loops.

End GuardFacts.

(** ** Loops as sequences of cycles *)

Section LoopFacts.
Context `{Platform}.

Lemma received_app (t1 t2 : list IOEvent) :
  received (t1 ++ t2) = received t1 ++ received t2.
Proof.
  induction t1 as [|e t1 IH]; cbn; [reflexivity|].
  destruct e as [? ?|[s| |]| | | | |]; cbn; rewrite ?IH; reflexivity.
Qed.

(** A loop whose body makes cycles of some shape makes a sequence of them. *)
Lemma while_true_trace (cycle : list IOEvent -> Result bool -> Prop)
    (body : Session bool) :
  (forall e, cycle (trace (body e)) (outcome (body e))) ->
  forall fuel e,
    loop_trace cycle fuel (trace (while_true body fuel e))
               (outcome (while_true body fuel e)).
Proof.
  intros Hbody. induction fuel as [|fuel IH]; intros e; cbn.
  - constructor.
  - unfold bind. specialize (Hbody e).
    destruct (body e) as [[r e1] t1]. unfold trace, outcome in *. cbn in Hbody.
    destruct r as [[|]|x|].
    + specialize (IH e1).
      destruct (while_true body fuel e1) as [[r2 e2] t2]. cbn in *.
      now apply loop_again.
    + cbn. rewrite app_nil_r. now apply loop_break.
    + cbn. now apply loop_throw.
    + cbn. now apply loop_stuck.
Qed.

Lemma loop_trace_mono (c1 c2 : list IOEvent -> Result bool -> Prop) :
  (forall t r, c1 t r -> c2 t r) ->
  forall fuel t r, loop_trace c1 fuel t r -> loop_trace c2 fuel t r.
Proof.
  intros Hsub fuel t r Hl.
  induction Hl; [constructor | apply loop_break | apply loop_throw
                 | apply loop_stuck | apply loop_again]; auto.
Qed.

Lemma negb_choice (b : bool) (e : Env) :
  (if negb b then ret false else ret true) e = ret b e.
Proof. destruct b; reflexivity. Qed.

Lemma read_cycle_shape (read_callback : ReadCallback) (e : Env) :
  read_cycle_trace (trace (read_cycle read_callback e))
                   (outcome (read_cycle read_callback e)).
Proof.
  unfold read_cycle, update, bind, updateWithoutConversion, call_read,
         trace, outcome.
  destruct (Impl_updateWithoutConversion (impl e)) as [[raw|x|] i]; cbn;
    try constructor.
  destruct (read_callback _ _) as [[b|x|] u]; cbn;
    rewrite ?negb_choice; cbn; constructor.
Qed.

Lemma mode_checked_cycle_shape (expected : RI.ControllerMode)
    (read_callback : ReadCallback) (e : Env) :
  mode_cycle_trace expected
    (trace (mode_checked_cycle expected read_callback e))
    (outcome (mode_checked_cycle expected read_callback e)).
Proof.
  unfold mode_checked_cycle, bind, updateWithoutConversion, call_read,
         trace, outcome.
  destruct (Impl_updateWithoutConversion (impl e)) as [[raw|x|] i]; cbn;
    try constructor.
  destruct (RI.ControllerMode_eqb (controller_mode raw) expected) eqn:Hmode;
    cbn.
  - destruct (read_callback _ _) as [[b|x|] u]; cbn;
      rewrite ?negb_choice; cbn; now constructor.
  - now constructor.
Qed.

Lemma mode_cycle_is_motion_cycle (expected : RI.ControllerMode)
    (t : list IOEvent) (r : Result bool) :
  mode_cycle_trace expected t r -> motion_cycle_trace expected t r.
Proof.
  intros Hc. destruct Hc; now constructor.
Qed.

Lemma motion_cycle_shape (T : MotionGeneratorType)
    (expected : RI.ControllerMode) (motion_callback : Callback (Motion T))
    (e : Env) :
  motion_cycle_trace expected
    (trace (motion_cycle T expected motion_callback e))
    (outcome (motion_cycle T expected motion_callback e)).
Proof.
  unfold motion_cycle, bind, updateWithoutConversion, call_motion,
         sendCommand, trace, outcome.
  destruct (Impl_updateWithoutConversion (impl e)) as [[raw|x|] i]; cbn;
    try constructor.
  destruct (RI.ControllerMode_eqb (controller_mode raw) expected) eqn:Hmode;
    cbn; [|now constructor].
  destruct (motion_callback _ _ _) as [[motion|x|] u]; cbn;
    try (apply mg_cycle; auto; fail).
  destruct (forallb is_finite (values motion)); cbn;
    [|apply mg_cycle; auto].
  destruct (Impl_sendCommand _ i) as [[[]|x|] i1]; cbn;
    try (apply mg_cycle; auto; fail).
  destruct (motion_finished motion); cbn; [|apply mg_cycle; auto].
  destruct (Impl_sendCommand _ i1) as [[[]|x|] i2]; cbn;
    apply mg_cycle; auto.
Qed.

(** In a loop of mode-checked cycles: no mode-set request is made, and a
    received state whose mode is not the expected one is the last event,
    the loop ending on it with the control exception. *)
Lemma mismatch_ends_loop (expected : RI.ControllerMode) (fuel : nat)
    (t : list IOEvent) (res : Result unit) :
  loop_trace (motion_cycle_trace expected) fuel t res ->
  count_events is_set_controller_mode t = 0
  /\ forall i s,
      received t !! i = Some s ->
      RI.ControllerMode_eqb (controller_mode s) expected = false ->
      res = Thrown (ControlException "Controller mode changed.")
      /\ length (received t) = S i
      /\ exists pre, t = pre ++ [IoUpdate (Returned s)].
Proof.
  intros Hl.
  assert (Hone : forall raw rest i s,
            RI.ControllerMode_eqb (controller_mode raw) expected = true ->
            received rest = [] ->
            received (IoUpdate (Returned raw) :: rest) !! i = Some s ->
            RI.ControllerMode_eqb (controller_mode s) expected = false ->
            False).
  { intros raw rest i s Hok Hrest Hi Hbad. cbn in Hi. rewrite Hrest in Hi.
    destruct i as [|i]; cbn in Hi; [|discriminate].
    injection Hi as ->. congruence. }
  induction Hl as [|fuel t Hc|fuel t x Hc|fuel t Hc|fuel t t' r Hc Hl IH].
  - split; [reflexivity|]. intros i s Hi. discriminate.
  - inversion Hc; subst. split; [cbn; assumption|].
    intros i s Hi Hbad. exfalso. eauto.
  - inversion Hc; subst.
    + split; [reflexivity|]. intros i s Hi. discriminate.
    + split; [reflexivity|]. intros i s Hi Hbad.
      destruct i as [|i]; cbn in Hi; [|discriminate].
      injection Hi as ->. repeat split. now exists [].
    + split; [cbn; assumption|]. intros i s Hi Hbad. exfalso. eauto.
  - inversion Hc; subst.
    + split; [reflexivity|]. intros i s Hi. discriminate.
    + split; [cbn; assumption|]. intros i s Hi Hbad. exfalso. eauto.
  - destruct IH as [IHcount IHlast]. inversion Hc; subst.
    split.
    + rewrite count_events_app. cbn. lia.
    + intros i s Hi Hbad. cbn in Hi. rewrite received_app in Hi.
      match goal with Hr : received _ = [] |- _ => rewrite Hr in Hi end.
      cbn in Hi. destruct i as [|i]; cbn in Hi.
      * injection Hi as ->. congruence.
      * destruct (IHlast i s Hi Hbad) as (-> & Hlen & pre & ->).
        repeat split.
        -- cbn. rewrite received_app.
           match goal with Hr : received _ = [] |- _ => rewrite Hr end.
           cbn. cbn in Hlen. lia.
        -- eexists. rewrite app_assoc. reflexivity.
Qed.

(** A loop that has ended on some fuel ends the same way on more fuel. *)
Lemma while_true_more_fuel (body : Session bool) (n k : nat) (e : Env) :
  ended (outcome (while_true body n e)) = true ->
  while_true body (n + k) e = while_true body n e.
Proof.
  revert e. induction n as [|n IH]; intros e; cbn.
  - discriminate.
  - unfold bind. destruct (body e) as [[r e1] t1].
    destruct r as [[|]|x|]; try reflexivity.
    specialize (IH e1).
    destruct (while_true body n e1) as [[r2 e2] t2] eqn:Hrun.
    unfold outcome in *. cbn in *. intros Hended.
    now rewrite (IH Hended).
Qed.

End LoopFacts.

(** ** Sessions *)

Section SessionFacts.
Context `{Platform}.

Lemma with_control_mutex_io {A : Type} (body : Session A) (w : World) :
  control_mutex_ (robot w) = false ->
  io_of (trace (with_control_mutex body w))
  = trace (body {| impl := impl_ (robot w); user := captures w |})
  /\ outcome (with_control_mutex body w)
     = outcome (body {| impl := impl_ (robot w); user := captures w |}).
Proof.
  intros Hfree. rewrite (with_control_mutex_free _ _ Hfree).
  destruct (body _) as [[res e] t]. unfold trace, outcome.
  destruct (ended res); cbn; rewrite ?io_of_app, io_of_map; cbn;
    rewrite ?app_nil_r; auto.
Qed.

Lemma with_control_mutex_io_busy {A : Type} (body : Session A) (w : World) :
  control_mutex_ (robot w) = true ->
  io_of (trace (with_control_mutex body w)) = [].
Proof. intros Hheld. now rewrite (with_control_mutex_busy _ _ Hheld). Qed.

Lemma reported_as_eqb (m : ControllerMode) (x : RI.ControllerMode) :
  supported m = true ->
  reported_as m x
  = RI.ControllerMode_eqb x (match m with
                             | kCartesianImpedance => RI.kCartesianImpedance
                             | _ => RI.kJointImpedance
                             end).
Proof. destruct m, x; cbn; intros; congruence. Qed.

(** The shape of a session that selects a mode, requests it and then
    loops: with an unsupported mode it makes no call; otherwise the
    request comes first and, when it returned, the loop follows. *)
Lemma mode_session_shape
    (cycle : RI.ControllerMode -> list IOEvent -> Result bool -> Prop)
    (body : RI.ControllerMode -> Session bool) :
  (forall expected e,
      cycle expected (trace (body expected e)) (outcome (body expected e))) ->
  forall (m : ControllerMode) (fuel : nat) (e : Env),
    let run := (modes <- select_mode m ;;
                executeCommand (RI.SetControllerMode (fst modes)) ;;
                while_true (body (snd modes)) fuel) e in
    match mode_request m with
    | None => run = (Thrown (invalid_argument "Invalid controller mode given."),
                     e, [])
    | Some sm =>
        exists expected r rest,
          (forall x, reported_as m x = RI.ControllerMode_eqb x expected)
          /\ trace run = IoExecuteCommand (RI.SetControllerMode sm) r :: rest
          /\ (rest = []
              \/ loop_trace (cycle expected) fuel rest (outcome run))
    end.
Proof.
  intros Hcycle m fuel e run. subst run.
  destruct m as [| |v]; cbn [mode_request]; [| |reflexivity];
    unfold bind, select_mode, ret, executeCommand; cbn [fst snd];
    destruct (Impl_executeCommand _ (impl e)) as [[[]|x|] i].
  all: try (eexists _, _, _;
            split; [intros y; apply reported_as_eqb; reflexivity|];
            split; [reflexivity | left; reflexivity]).
  all: match goal with
       | Hc : forall x e0, ?c x _ _ |- context [while_true (?b ?em) ?f ?e'] =>
           pose proof (while_true_trace (c em) (b em) (Hc em) f e') as Hl;
           destruct (while_true (b em) f e') as [[r2 e2] t2]
       end;
       unfold trace, outcome in *; cbn in *;
       eexists _, _, _;
       (split; [|split; [reflexivity | right; exact Hl]]);
       intros y; destruct y; reflexivity.
Qed.

(** In a loop of cycles of the mode-checked read session every call of
    the predicate comes straight after the receipt of the state it is
    called on, and that state has the expected mode. *)
Lemma callback_follows_matching_state (expected : RI.ControllerMode)
    (fuel : nat) (t : list IOEvent) (res : Result unit) :
  loop_trace (mode_cycle_trace expected) fuel t res ->
  forall j s r,
    t !! j = Some (IoReadCallback s r) ->
    exists i raw,
      j = S i
      /\ t !! i = Some (IoUpdate (Returned raw))
      /\ s = convertRobotState raw
      /\ RI.ControllerMode_eqb (controller_mode raw) expected = true.
Proof.
  intros Hl.
  assert (Hone : forall t0 r0 t1 j s r,
            mode_cycle_trace expected t0 r0 ->
            (t0 ++ t1) !! j = Some (IoReadCallback s r) ->
            (exists raw, j = 1
               /\ (t0 ++ t1) !! 0 = Some (IoUpdate (Returned raw))
               /\ s = convertRobotState raw
               /\ RI.ControllerMode_eqb (controller_mode raw) expected = true)
            \/ (exists j', j = length t0 + j'
                  /\ t1 !! j' = Some (IoReadCallback s r))).
  { intros t0 r0 t1 j s r Hc Hj. destruct Hc; cbn in *.
    - destruct j as [|j]; cbn in Hj; [discriminate|]. right. eauto.
    - destruct j as [|j]; cbn in Hj; [discriminate|]. right. eauto.
    - destruct j as [|j]; cbn in Hj; [discriminate|]. right. eauto.
    - destruct j as [|[|j]]; cbn in Hj; [discriminate| |right; eauto].
      injection Hj as Hs Hr. subst s r. left. eauto. }
  induction Hl as [|fuel t Hc|fuel t x Hc|fuel t Hc|fuel t t' r0 Hc Hl IH];
    intros j s r Hj.
  - discriminate.
  - rewrite <- (app_nil_r t) in Hj.
    destruct (Hone _ _ _ _ _ _ Hc Hj) as [(raw & -> & H0 & -> & Hok)|(j' & _ & Hnil)];
      [|discriminate].
    rewrite app_nil_r in H0. exists 0, raw. auto.
  - rewrite <- (app_nil_r t) in Hj.
    destruct (Hone _ _ _ _ _ _ Hc Hj) as [(raw & -> & H0 & -> & Hok)|(j' & _ & Hnil)];
      [|discriminate].
    rewrite app_nil_r in H0. exists 0, raw. auto.
  - rewrite <- (app_nil_r t) in Hj.
    destruct (Hone _ _ _ _ _ _ Hc Hj) as [(raw & -> & H0 & -> & Hok)|(j' & _ & Hnil)];
      [|discriminate].
    rewrite app_nil_r in H0. exists 0, raw. auto.
  - destruct (Hone _ _ _ _ _ _ Hc Hj) as [(raw & -> & H0 & -> & Hok)|(j' & -> & Hj')].
    + exists 0, raw. auto.
    + destruct (IH _ _ _ Hj') as (i & raw & -> & Hi & -> & Hok).
      exists (length t + i), raw. repeat split; auto.
      rewrite lookup_app_r by lia.
      replace (length t + i - length t) with i by lia. exact Hi.
Qed.

(** In a read loop: no command leaves the host, the predicate is called
    exactly on the conversions of the received states, and a call that
    answers [false] is the last event, the loop returning after it. *)
Lemma read_loop_facts (fuel : nat) (t : list IOEvent) (res : Result unit) :
  loop_trace read_cycle_trace fuel t res ->
  count_events is_outgoing t = 0
  /\ observed t = map convertRobotState (received t)
  /\ forall j s,
      t !! j = Some (IoReadCallback s (Returned false)) ->
      res = Returned tt /\ length t = S j.
Proof.
  intros Hl.
  induction Hl as [|fuel t Hc|fuel t x Hc|fuel t Hc|fuel t t' r0 Hc Hl IH].
  - split; [reflexivity|]. split; [reflexivity|]. intros j s Hj. discriminate.
  - inversion Hc; subst. split; [reflexivity|]. split; [reflexivity|].
    intros j s Hj. destruct j as [|[|j]]; cbn in Hj; try discriminate. auto.
  - inversion Hc; subst; (split; [reflexivity|]); (split; [reflexivity|]);
      intros j s Hj; destruct j as [|[|j]]; cbn in Hj; discriminate.
  - inversion Hc; subst; (split; [reflexivity|]); (split; [reflexivity|]);
      intros j s Hj; destruct j as [|[|j]]; cbn in Hj; discriminate.
  - destruct IH as (IHout & IHobs & IHlast). inversion Hc; subst.
    split; [exact IHout|]. split; [cbn; now rewrite IHobs|].
    intros j s Hj. destruct j as [|[|j]]; cbn in Hj; try discriminate.
    destruct (IHlast _ _ Hj) as [-> Hlen]. cbn. rewrite Hlen. auto.
Qed.

End SessionFacts.

(** ** Sessions with a controller mode, and read sessions *)

Section ModeSessions.
Context `{Platform}.

(** What holds of every entry point that takes the mutex, selects a mode,
    requests it and loops on cycles that check the mode first. *)
Lemma mode_session_facts (body : RI.ControllerMode -> Session bool) :
  (forall expected e,
      motion_cycle_trace expected (trace (body expected e))
                         (outcome (body expected e))) ->
  forall (m : ControllerMode) (fuel : nat) (w : World),
    let run :=
      with_control_mutex
        (modes <- select_mode m ;;
         executeCommand (RI.SetControllerMode (fst modes)) ;;
         while_true (body (snd modes)) fuel) w in
    (control_mutex_ (robot w) = false ->
     forall sm, mode_request m = Some sm ->
       exists r rest,
         io_of (trace run) = IoExecuteCommand (RI.SetControllerMode sm) r :: rest
         /\ count_events is_set_controller_mode rest = 0)
    /\ (forall i s,
          received (io_of (trace run)) !! i = Some s ->
          reported_as m (controller_mode s) = false ->
          outcome run = Thrown (ControlException "Controller mode changed.")
          /\ length (received (io_of (trace run))) = S i
          /\ exists pre, io_of (trace run) = pre ++ [IoUpdate (Returned s)]).
Proof.
  intros Hbody m fuel w run. subst run.
  destruct (control_mutex_ (robot w)) eqn:Hmutex.
  - split; [discriminate|]. intros i s Hi.
    rewrite (with_control_mutex_io_busy _ _ Hmutex) in Hi. discriminate.
  - destruct (with_control_mutex_io
                (modes <- select_mode m ;;
                 executeCommand (RI.SetControllerMode (fst modes)) ;;
                 while_true (body (snd modes)) fuel) w Hmutex) as [Hio Hout].
    rewrite Hio, Hout. clear Hio Hout.
    pose proof (mode_session_shape motion_cycle_trace body Hbody m fuel
                  {| impl := impl_ (robot w); user := captures w |}) as Hshape.
    cbv zeta in Hshape.
    destruct (mode_request m) as [sm|].
    + destruct Hshape as (expected & r & rest & Hrep & Htrace & Hrest).
      rewrite Htrace.
      assert (Hfacts :
                count_events is_set_controller_mode rest = 0
                /\ forall i s,
                    received rest !! i = Some s ->
                    RI.ControllerMode_eqb (controller_mode s) expected = false ->
                    outcome ((modes <- select_mode m ;;
                              executeCommand (RI.SetControllerMode (fst modes)) ;;
                              while_true (body (snd modes)) fuel)
                               {| impl := impl_ (robot w); user := captures w |})
                    = Thrown (ControlException "Controller mode changed.")
                    /\ length (received rest) = S i
                    /\ exists pre, rest = pre ++ [IoUpdate (Returned s)]).
      { destruct Hrest as [->|Hloop].
        - split; [reflexivity|]. intros i s Hi. discriminate.
        - exact (mismatch_ends_loop _ _ _ _ Hloop). }
      destruct Hfacts as [Hcount Hlast]. split.
      * intros _ sm' Hsm. injection Hsm as <-. eauto.
      * intros i s Hi Hbad. cbn [received] in Hi. rewrite Hrep in Hbad.
        destruct (Hlast i s Hi Hbad) as (Hres & Hlen & pre & Hpre).
        split; [exact Hres|]. split; [exact Hlen|].
        exists (IoExecuteCommand (RI.SetControllerMode sm) r :: pre).
        now rewrite Hpre.
    + rewrite Hshape. unfold trace. cbn. split; [discriminate|].
      intros i s Hi. discriminate.
Qed.

(** C4.  In [control(ControllerMode, read_callback)], whatever the cycle
    [k >= 1]: when the [k]-th state received reports a mode that is not
    the requested one, the call has thrown the control exception
    ("Controller mode changed."), exactly [k] states were received, and the
    receipt of that state is the last thing the session did: no further
    cycle, no call of the callback on it, no retry. *)
Theorem mode_mismatch_ends_session (m : ControllerMode)
    (read_callback : ReadCallback) (fuel : nat) (w : World)
    (k : nat) (s : RawRobotState) :
  1 <= k ->
  received (io_of (trace (control_mode_read m read_callback fuel w))) !! (k - 1)
  = Some s ->
  reported_as m (controller_mode s) = false ->
  outcome (control_mode_read m read_callback fuel w)
  = Thrown (ControlException "Controller mode changed.")
  /\ length (received (io_of (trace (control_mode_read m read_callback fuel w))))
     = k
  /\ exists pre,
      io_of (trace (control_mode_read m read_callback fuel w))
      = pre ++ [IoUpdate (Returned s)].
Proof.
  intros Hk Hi Hbad.
  destruct (mode_session_facts
              (fun expected => mode_checked_cycle expected read_callback)
              (fun expected e =>
                 mode_cycle_is_motion_cycle _ _ _
                   (mode_checked_cycle_shape expected read_callback e))
              m fuel w) as [_ Hlast].
  destruct (Hlast (k - 1) s Hi Hbad) as (Hres & Hlen & Hpre).
  split; [exact Hres|]. split; [|exact Hpre].
  unfold control_mode_read. rewrite Hlen. lia.
Qed.

(** C10.  In [control(ControllerMode, read_callback)] every call of the
    callback comes straight after the receipt of a robot state that
    reports the requested mode, and is a call on the conversion of that
    state: the callback never sees a state of another mode. *)
Theorem read_callback_only_sees_requested_mode (m : ControllerMode)
    (read_callback : ReadCallback) (fuel : nat) (w : World)
    (j : nat) (s : RobotState) (r : Result bool) :
  io_of (trace (control_mode_read m read_callback fuel w)) !! j
  = Some (IoReadCallback s r) ->
  exists i raw,
    j = S i
    /\ io_of (trace (control_mode_read m read_callback fuel w)) !! i
       = Some (IoUpdate (Returned raw))
    /\ s = convertRobotState raw
    /\ reported_as m (controller_mode raw) = true.
Proof.
  unfold control_mode_read.
  destruct (control_mutex_ (robot w)) eqn:Hmutex.
  - rewrite (with_control_mutex_io_busy _ _ Hmutex). discriminate.
  - destruct (with_control_mutex_io
                (modes <- select_mode m ;;
                 executeCommand (RI.SetControllerMode (fst modes)) ;;
                 while_true (mode_checked_cycle (snd modes) read_callback) fuel)
                w Hmutex) as [Hio _].
    rewrite Hio. clear Hio.
    pose proof (mode_session_shape mode_cycle_trace
                  (fun expected => mode_checked_cycle expected read_callback)
                  (fun expected e =>
                     mode_checked_cycle_shape expected read_callback e)
                  m fuel {| impl := impl_ (robot w); user := captures w |})
      as Hshape.
    cbv zeta beta in Hshape.
    destruct (mode_request m) as [sm|].
    + destruct Hshape as (expected & r0 & rest & Hrep & Htrace & Hrest).
      rewrite Htrace. intros Hj.
      destruct j as [|j]; [discriminate|]. cbn in Hj.
      destruct Hrest as [->|Hloop]; [discriminate|].
      destruct (callback_follows_matching_state _ _ _ _ Hloop _ _ _ Hj)
        as (i & raw & -> & Hi & -> & Hok).
      exists (S i), raw. rewrite Hrep. auto.
    + rewrite Hshape. discriminate.
Qed.

(** A loop runs its cycles one after the other, each in the environment
    the one before left. *)
Lemma while_true_run
    (cycle : Env -> Result bool * Env * list IOEvent -> Prop)
    (body : Session bool) :
  (forall e, cycle e (body e)) ->
  forall fuel e,
    cycles_run cycle fuel e (trace (while_true body fuel e))
               (outcome (while_true body fuel e))
               (final (while_true body fuel e)).
Proof.
  intros Hbody. induction fuel as [|fuel IH]; intros e; cbn.
  - constructor.
  - unfold bind. specialize (Hbody e).
    destruct (body e) as [[r e1] t1]. destruct r as [[|]|x|].
    + specialize (IH e1).
      destruct (while_true body fuel e1) as [[r2 e2] t2].
      unfold trace, outcome, final in *. cbn in *.
      eapply run_next; eassumption.
    + unfold trace, outcome, final. cbn. rewrite app_nil_r.
      now apply run_break.
    + unfold trace, outcome, final. cbn. now apply run_throw.
    + unfold trace, outcome, final. cbn. now apply run_stuck.
Qed.

Lemma read_cycle_is_step (read_callback : ReadCallback) (e : Env) :
  read_cycle_step read_callback e (read_cycle read_callback e).
Proof.
  unfold read_cycle, update, bind, updateWithoutConversion, call_read, ret.
  destruct (Impl_updateWithoutConversion (impl e)) as [[raw|x|] i] eqn:Hu;
    cbn; try (constructor; assumption).
  destruct (read_callback (convertRobotState raw) (user e)) as [r u] eqn:Hc.
  pose proof (rs_called read_callback e raw i r u Hu Hc) as Hstep.
  destruct r as [[|]|x|]; exact Hstep.
Qed.




(** What a call that took the free mutex leaves: the handle holds what
    the session left, and the mutex is owned exactly while the session has
    not ended. *)
Lemma with_control_mutex_final {A : Type} (body : Session A) (w : World) :
  control_mutex_ (robot w) = false ->
  env_of (final (with_control_mutex body w)) = final (body (env_of w))
  /\ control_mutex_ (robot (final (with_control_mutex body w)))
     = negb (ended (outcome (with_control_mutex body w))).
Proof.
  intros Hfree. rewrite (with_control_mutex_free _ _ Hfree).
  unfold env_of. destruct (body _) as [[res e] t].
  unfold final, outcome. destruct e as [i u].
  destruct (ended res) eqn:Hres; cbn; rewrite ?Hres; auto.
Qed.



(** C6.  [Impl::update] is modelled from the spec as the receipt of one
    state followed by its conversion.  A read session (the call took the
    free mutex) is a run of cycles from the handle as the call found it to
    the handle as it leaves it: each cycle takes its state from
    [Impl::updateWithoutConversion] on the implementation object the cycle
    before left, and calls the predicate once, on the conversion of that
    state and on the captures the call before left; the cycle is followed
    by another one exactly when that call answered [true]; the mutex is
    released exactly when the session has ended.  So the trace is a
    sequence of receipt-and-call cycles; no command leaves the host; the
    predicate is called once on each received state, in order; and a call
    that answers [false] is the last event, [read] returning after it. *)
Theorem read_session_cycles (read_callback : ReadCallback) (fuel : nat)
    (w : World) :
  control_mutex_ (robot w) = false ->
  cycles_run (read_cycle_step read_callback) fuel (env_of w)
             (io_of (trace (read read_callback fuel w)))
             (outcome (read read_callback fuel w))
             (env_of (final (read read_callback fuel w)))
  /\ control_mutex_ (robot (final (read read_callback fuel w)))
     = negb (ended (outcome (read read_callback fuel w)))
  /\ loop_trace read_cycle_trace fuel
                (io_of (trace (read read_callback fuel w)))
                (outcome (read read_callback fuel w))
  /\ count_events is_outgoing (io_of (trace (read read_callback fuel w))) = 0
  /\ observed (io_of (trace (read read_callback fuel w)))
     = map convertRobotState
           (received (io_of (trace (read read_callback fuel w))))
  /\ forall j s,
      io_of (trace (read read_callback fuel w)) !! j
      = Some (IoReadCallback s (Returned false)) ->
      outcome (read read_callback fuel w) = Returned tt
      /\ length (io_of (trace (read read_callback fuel w))) = S j.
Proof.
  intros Hfree. unfold read.
  destruct (with_control_mutex_final
              (while_true (read_cycle read_callback) fuel) w Hfree)
    as [Hfinal Hmutex].
  split; [|split; [exact Hmutex|]].
  - destruct (with_control_mutex_io
                (while_true (read_cycle read_callback) fuel) w Hfree)
      as [Hio Hout].
    rewrite Hio, Hout, Hfinal.
    apply while_true_run, read_cycle_is_step.
  - destruct (with_control_mutex_io
                (while_true (read_cycle read_callback) fuel) w Hfree)
      as [Hio Hout].
    rewrite Hio, Hout.
    pose proof (while_true_trace read_cycle_trace (read_cycle read_callback)
                  (read_cycle_shape read_callback) fuel
                  {| impl := impl_ (robot w); user := captures w |}) as Hloop.
    split; [exact Hloop|]. exact (read_loop_facts _ _ _ Hloop).
Qed.

(** The fuel only cuts runs short: a call of [read] or of
    [control(ControllerMode, read_callback)] that has ended on some fuel
    is the same call on more fuel. *)
Lemma with_control_mutex_more_fuel {A : Type} (body : nat -> Session A)
    (n k : nat) (w : World) :
  (forall e, ended (outcome (body n e)) = true -> body (n + k) e = body n e) ->
  ended (outcome (with_control_mutex (body n) w)) = true ->
  with_control_mutex (body (n + k)) w = with_control_mutex (body n) w.
Proof.
  intros Hbody. unfold with_control_mutex.
  destruct (try_to_lock (robot w)) as [owns r].
  destruct (negb owns); [reflexivity|].
  specialize (Hbody {| impl := impl_ r; user := captures w |}).
  destruct (body n _) as [[res e] t].
  unfold outcome in *. cbn in Hbody.
  destruct (ended res) eqn:Hres; cbn; [|rewrite Hres; discriminate].
  intros _. rewrite (Hbody eq_refl). cbn. rewrite Hres. reflexivity.
Qed.

Lemma read_more_fuel (read_callback : ReadCallback) (n k : nat) (w : World) :
  ended (outcome (read read_callback n w)) = true ->
  read read_callback (n + k) w = read read_callback n w.
Proof.
  apply (with_control_mutex_more_fuel
           (fun fuel => while_true (read_cycle read_callback) fuel)).
  intros e. apply while_true_more_fuel.
Qed.

Lemma control_mode_read_more_fuel (m : ControllerMode)
    (read_callback : ReadCallback) (n k : nat) (w : World) :
  ended (outcome (control_mode_read m read_callback n w)) = true ->
  control_mode_read m read_callback (n + k) w
  = control_mode_read m read_callback n w.
Proof.
  apply (with_control_mutex_more_fuel
           (fun fuel =>
              modes <- select_mode m ;;
              executeCommand (RI.SetControllerMode (fst modes)) ;;
              while_true (mode_checked_cycle (snd modes) read_callback) fuel)).
  intros e. unfold bind.
  destruct (select_mode m e) as [[[modes|x|] e0] t0]; try reflexivity.
  destruct (executeCommand _ e0) as [[[[]|x|] e1] t1]; try reflexivity.
  pose proof (while_true_more_fuel
                (mode_checked_cycle (snd modes) read_callback) n k e1) as Hmore.
  destruct (while_true (mode_checked_cycle (snd modes) read_callback) n e1)
    as [[res e2] t2].
  unfold outcome in *. cbn in *. intros Hres. now rewrite (Hmore Hres).
Qed.

End ModeSessions.

(** ** Configuration commands and the guard *)

Section ConfigurationFacts.
Context `{Platform}.

(** C3, as the code has it.  A configuration command never consults
    [control_mutex_]: whether or not a session owns the mutex, the request
    is handed to [Impl::executeCommand], the call ends the way that call
    ends, and the mutex is left as it was. *)
Theorem configuration_bypasses_session_guard (c : ConfigurationCall)
    (w : World) :
  configure c w
  = (let '(r, i) := Impl_executeCommand (request_of c) (impl_ (robot w)) in
     (r,
      {| robot := {| control_mutex_ := control_mutex_ (robot w); impl_ := i |};
         captures := captures w |},
      [EvIO (IoExecuteCommand (request_of c) r)])).
Proof.
  destruct c; cbn [configure request_of];
    unfold setCollisionBehavior, setCollisionBehavior4, setJointImpedance,
           setCartesianImpedance, setGuidingMode, setK, setEE, setLoad,
           automaticErrorRecovery, on_impl, executeCommand; cbn;
    destruct (Impl_executeCommand _ _); reflexivity.
Qed.

(** C9.  The four-argument [setCollisionBehavior] is the eight-argument
    one with the torque thresholds given for both the acceleration and the
    nominal pair, and likewise the force thresholds. *)
Theorem setCollisionBehavior4_duplicates_thresholds
    (lower_torque_thresholds upper_torque_thresholds : array double 7)
    (lower_force_thresholds upper_force_thresholds : array double 6)
    (w : World) :
  setCollisionBehavior4 lower_torque_thresholds upper_torque_thresholds
                        lower_force_thresholds upper_force_thresholds w
  = setCollisionBehavior lower_torque_thresholds upper_torque_thresholds
                         lower_torque_thresholds upper_torque_thresholds
                         lower_force_thresholds upper_force_thresholds
                         lower_force_thresholds upper_force_thresholds w.
Proof. reflexivity. Qed.

(** C5, as the code has it.  [control(ControllerMode, read_callback)] with
    a mode that is neither [kJointImpedance] nor [kCartesianImpedance]
    makes no call to the implementation, so no command is sent; on a
    handle whose mutex is free it throws [std::invalid_argument] and
    leaves the handle as it was; on a handle whose mutex is owned it
    throws the session-busy exception instead. *)
Theorem unsupported_mode_sends_no_command (m : ControllerMode)
    (read_callback : ReadCallback) (fuel : nat) (w : World) :
  m <> kJointImpedance ->
  m <> kCartesianImpedance ->
  io_of (trace (control_mode_read m read_callback fuel w)) = []
  /\ (control_mutex_ (robot w) = false ->
      control_mode_read m read_callback fuel w
      = (Thrown (invalid_argument "Invalid controller mode given."), w,
         [EvLock; EvUnlock]))
  /\ (control_mutex_ (robot w) = true ->
      control_mode_read m read_callback fuel w
      = (Thrown (InvalidOperationException busy_message), w, [])).
Proof.
  intros Hji Hci. destruct m as [| |v]; try congruence.
  assert (Hfree : control_mutex_ (robot w) = false ->
                  control_mode_read (kUnlisted v) read_callback fuel w
                  = (Thrown (invalid_argument "Invalid controller mode given."),
                     w, [EvLock; EvUnlock])).
  { intros Hmutex. unfold control_mode_read.
    rewrite (with_control_mutex_free _ _ Hmutex). cbn.
    destruct w as [[mutex i] u]. cbn in *. now subst mutex. }
  assert (Hbusy : control_mutex_ (robot w) = true ->
                  control_mode_read (kUnlisted v) read_callback fuel w
                  = (Thrown (InvalidOperationException busy_message), w, [])).
  { intros Hmutex. apply with_control_mutex_busy, Hmutex. }
  split; [|split; assumption].
  destruct (control_mutex_ (robot w)) eqn:Hmutex.
  - now rewrite Hbusy.
  - now rewrite Hfree.
Qed.

End ConfigurationFacts.

(** ** Threads *)

Section ThreadFacts.
Context `{Platform}.
Variable ControlLoop : Callback Torques -> nat -> Session unit.
Variable MotionGeneratorLoop2 :
  forall T : MotionGeneratorType,
    Callback Torques -> Callback (Motion T) -> nat -> Session unit.
Variable MotionGeneratorLoop1 :
  forall T : MotionGeneratorType,
    ControllerMode -> Callback (Motion T) -> nat -> Session unit.

Local Abbreviation step :=
  (thread_step ControlLoop MotionGeneratorLoop2 MotionGeneratorLoop1).
Local Abbreviation run :=
  (run_schedule ControlLoop MotionGeneratorLoop2 MotionGeneratorLoop1).
Local Abbreviation mutex_of s := (control_mutex_ (robot (shared s))).
Local Abbreviation busy_failure :=
  (Finished (Thrown (InvalidOperationException busy_message))).

Lemma count_events_insert (p : ThreadState -> bool) (l : list ThreadState)
    (i : nat) (x y : ThreadState) :
  l !! i = Some x ->
  count_events p (<[i := y]> l) + (if p x then 1 else 0)
  = count_events p l + (if p y then 1 else 0).
Proof.
  revert i. induction l as [|z l IH]; intros i Hi; [discriminate|].
  destruct i as [|i]; cbn in Hi.
  - injection Hi as ->. change (<[0 := y]> (x :: l)) with (y :: l).
    cbn [count_events]. lia.
  - specialize (IH i Hi).
    change (<[S i := y]> (z :: l)) with (z :: <[i := y]> l).
    cbn [count_events]. lia.
Qed.

(** The first step of a call: it owns the mutex, or it has failed. *)
Lemma pending_step (i fuel : nat) (s : System) (c : EntryPoint) :
  threads s !! i = Some (Pending c) ->
  (mutex_of s = false
   /\ mutex_of (step i fuel s) = true
   /\ threads (step i fuel s) = <[i := Active c]> (threads s))
  \/ (mutex_of s = true
      /\ shared (step i fuel s) = shared s
      /\ threads (step i fuel s) = <[i := busy_failure]> (threads s)).
Proof.
  intros Hi. unfold thread_step, try_to_lock. rewrite Hi.
  destruct (control_mutex_ (robot (shared s))) eqn:Hmutex; cbn; auto.
Qed.

Lemma step_keeps_guard_invariant (i fuel : nat) (s : System) :
  guard_invariant s -> guard_invariant (step i fuel s).
Proof.
  unfold guard_invariant. intros Hinv.
  destruct (threads s !! i) as [[c|c|r]|] eqn:Hi.
  - destruct (pending_step i fuel s c Hi)
      as [(Hfree & -> & ->)|(Hheld & -> & ->)];
      pose proof (count_events_insert is_active _ _ _ (Active c) Hi) as Ha;
      pose proof (count_events_insert is_active _ _ _ busy_failure Hi) as Hb;
      cbn in Ha, Hb.
    + rewrite Hfree in Hinv. lia.
    + rewrite Hheld in *. lia.
  - unfold thread_step. rewrite Hi.
    destruct (session_of _ _ _ c fuel _) as [[res e] t].
    destruct (ended res); [|exact Hinv]. cbn.
    pose proof (count_events_insert is_active _ _ _ (Finished res) Hi) as Ha.
    cbn in Ha. destruct (control_mutex_ (robot (shared s))); lia.
  - unfold thread_step. rewrite Hi. exact Hinv.
  - unfold thread_step. rewrite Hi. exact Hinv.
Qed.

Lemma run_keeps_guard_invariant (schedule : list (nat * nat)) (s : System) :
  guard_invariant s -> guard_invariant (run schedule s).
Proof.
  revert s. induction schedule as [|[i fuel] rest IH]; intros s Hinv; cbn.
  - exact Hinv.
  - apply IH, step_keeps_guard_invariant, Hinv.
Qed.

Lemma spawn_counts (w : World) (calls : list EntryPoint) :
  count_events is_pending (threads (spawn w calls)) = length calls
  /\ count_events is_active (threads (spawn w calls)) = 0
  /\ count_events is_busy_failure (threads (spawn w calls)) = 0.
Proof.
  cbn. induction calls as [|c calls (IHp & IHa & IHb)]; cbn; auto.
Qed.

(** Calls that all start while no session has ended: the first one to
    execute [try_to_lock] owns the mutex, every later one fails. *)
Lemma first_steps (schedule : list (nat * nat)) :
  forall s : System,
    NoDup (map fst schedule) ->
    (forall i, i ∈ map fst schedule ->
               exists c, threads s !! i = Some (Pending c)) ->
    count_events is_pending (threads (run schedule s)) + length schedule
    = count_events is_pending (threads s)
    /\ (mutex_of s = true ->
        count_events is_active (threads (run schedule s))
        = count_events is_active (threads s)
        /\ count_events is_busy_failure (threads (run schedule s))
           = count_events is_busy_failure (threads s) + length schedule)
    /\ (mutex_of s = false -> schedule <> [] ->
        count_events is_active (threads (run schedule s))
        = count_events is_active (threads s) + 1
        /\ count_events is_busy_failure (threads (run schedule s)) + 1
           = count_events is_busy_failure (threads s) + length schedule).
Proof.
  induction schedule as [|[i fuel] rest IH]; intros s Hnodup Hpending.
  - cbn. split; [lia|]. split; [intros _; lia|]. intros _ Hne. congruence.
  - cbn [map fst] in Hnodup. apply NoDup_cons in Hnodup as [Hi Hnodup].
    destruct (Hpending i) as [c Hc]; [cbn; left|].
    assert (Hrest : forall j, j ∈ map fst rest ->
                      exists c', threads (step i fuel s) !! j = Some (Pending c')).
    { intros j Hj. assert (i <> j) by (intros ->; contradiction).
      destruct (Hpending j) as [c' Hc']; [cbn; now right|].
      exists c'.
      destruct (pending_step i fuel s c Hc) as [(_ & _ & ->)|(_ & _ & ->)];
        now rewrite list_lookup_insert_ne. }
    destruct (IH (step i fuel s) Hnodup Hrest) as (IHp & IHheld & _).
    cbn [run_schedule length].
    pose proof (count_events_insert is_pending _ _ _ (Active c) Hc) as Hpa.
    pose proof (count_events_insert is_pending _ _ _ busy_failure Hc) as Hpb.
    pose proof (count_events_insert is_active _ _ _ (Active c) Hc) as Haa.
    pose proof (count_events_insert is_active _ _ _ busy_failure Hc) as Hab.
    pose proof (count_events_insert is_busy_failure _ _ _ (Active c) Hc) as Hba.
    pose proof (count_events_insert is_busy_failure _ _ _ busy_failure Hc) as Hbb.
    cbn in Hpa, Hpb, Haa, Hab, Hba, Hbb.
    destruct (pending_step i fuel s c Hc)
      as [(Hfree & Hnow & Hthreads)|(Hheld & Hshared & Hthreads)].
    + destruct (IHheld Hnow) as [IHa IHb].
      rewrite Hthreads in IHp, IHa, IHb.
      split; [lia|]. split; [congruence|]. intros _ _. lia.
    + assert (Hnow : mutex_of (step i fuel s) = true) by now rewrite Hshared.
      destruct (IHheld Hnow) as [IHa IHb].
      rewrite Hthreads in IHp, IHa, IHb.
      split; [lia|]. split; [intros _; lia|]. congruence.
Qed.

(** One thread alone: its two steps are the call of the entry point. *)
Lemma steps_of_one_thread_are_invoke (c : EntryPoint) (fuel : nat) (w : World) :
  let s1 := step 0 fuel (spawn w [c]) in
  let s2 := step 0 fuel s1 in
  let call := invoke ControlLoop MotionGeneratorLoop2 MotionGeneratorLoop1
                     c fuel w in
  (control_mutex_ (robot w) = true ->
   threads s1 = [Finished (outcome call)] /\ shared s1 = final call)
  /\ (control_mutex_ (robot w) = false -> ended (outcome call) = true ->
      threads s2 = [Finished (outcome call)] /\ shared s2 = final call).
Proof.
  cbv zeta. rewrite invoke_session_of. split.
  - intros Hheld. rewrite (with_control_mutex_busy _ _ Hheld).
    unfold thread_step, try_to_lock. cbn. rewrite Hheld. cbn. auto.
  - intros Hfree. rewrite (with_control_mutex_free _ _ Hfree).
    assert (Hs1 : step 0 fuel (spawn w [c])
                  = {| shared :=
                         {| robot := {| control_mutex_ := true;
                                        impl_ := impl_ (robot w) |};
                            captures := captures w |};
                       threads := [Active c] |}).
    { unfold thread_step, try_to_lock. cbn. now rewrite Hfree. }
    rewrite Hs1. unfold thread_step. cbn.
    destruct (session_of _ _ _ c fuel _) as [[res e] t].
    unfold outcome, final.
    destruct (ended res) eqn:Hres; cbn; [auto|]. rewrite Hres. discriminate.
Qed.

(** C8, with the condition on the attempts made explicit.  Threads
    calling entry points of one handle whose mutex is free, under every
    interleaving of their steps: at each instant at most one of them is
    inside a session; when each of the [N >= 1] calls has executed its
    [try_to_lock], in any order, before any session ended, exactly one
    owns the mutex and the other [N-1] have thrown the session-busy
    exception; a call that has not started yet is, after its own next
    step, either inside its session or failed: it never waits for the
    owner; and which of the two is decided by whether a session is running
    at that step: with one running the call fails and leaves the handle
    as it is, with none running the call is inside its session. *)
Theorem one_session_at_any_instant (w : World) (calls : list EntryPoint) :
  control_mutex_ (robot w) = false ->
  (forall schedule,
      count_events is_active (threads (run schedule (spawn w calls))) <= 1)
  /\ (forall schedule,
         calls <> [] ->
         map fst schedule ≡ₚ seq 0 (length calls) ->
         count_events is_active (threads (run schedule (spawn w calls))) = 1
         /\ count_events is_busy_failure
              (threads (run schedule (spawn w calls))) = length calls - 1
         /\ count_events is_pending
              (threads (run schedule (spawn w calls))) = 0)
  /\ (forall schedule i fuel c,
         threads (run schedule (spawn w calls)) !! i = Some (Pending c) ->
         threads (step i fuel (run schedule (spawn w calls))) !! i
         = Some (Active c)
         \/ threads (step i fuel (run schedule (spawn w calls))) !! i
            = Some busy_failure)
  /\ (forall schedule i fuel c,
         threads (run schedule (spawn w calls)) !! i = Some (Pending c) ->
         (count_events is_active (threads (run schedule (spawn w calls))) = 0
          /\ threads (step i fuel (run schedule (spawn w calls))) !! i
             = Some (Active c))
         \/ (count_events is_active (threads (run schedule (spawn w calls))) = 1
             /\ shared (step i fuel (run schedule (spawn w calls)))
                = shared (run schedule (spawn w calls))
             /\ threads (step i fuel (run schedule (spawn w calls))) !! i
                = Some busy_failure)).
Proof.
  intros Hfree.
  destruct (spawn_counts w calls) as (Hp0 & Ha0 & Hb0).
  assert (Hinv0 : guard_invariant (spawn w calls)).
  { unfold guard_invariant. rewrite Ha0. cbn. now rewrite Hfree. }
  split; [|split; [|split]].
  - intros schedule.
    pose proof (run_keeps_guard_invariant schedule _ Hinv0) as Hinv.
    unfold guard_invariant in Hinv. rewrite Hinv.
    match goal with |- (if ?b then _ else _) <= _ => destruct b end; lia.
  - intros schedule Hcalls Hperm.
    assert (Hlen : length schedule = length calls).
    { rewrite <- (length_map fst schedule), Hperm. apply length_seq. }
    assert (Hnodup : NoDup (map fst schedule)).
    { rewrite Hperm. apply NoDup_seq. }
    assert (Hpending : forall i, i ∈ map fst schedule ->
                         exists c, threads (spawn w calls) !! i = Some (Pending c)).
    { intros i Hi. rewrite Hperm in Hi. apply elem_of_seq in Hi.
      destruct (lookup_lt_is_Some_2 calls i) as [c Hc]; [lia|].
      exists c. cbn. now rewrite list_lookup_fmap, Hc. }
    destruct (first_steps schedule _ Hnodup Hpending) as (Hp & _ & Hfirst).
    destruct Hfirst as [Ha Hb]; [exact Hfree| |].
    + intros ->. destruct calls; [congruence|discriminate].
    + lia.
  - intros schedule i fuel c Hi.
    destruct (pending_step i fuel _ c Hi) as [(_ & _ & ->)|(_ & _ & ->)];
      [left|right]; apply list_lookup_insert_eq; eapply lookup_lt_Some, Hi.
  - intros schedule i fuel c Hi.
    pose proof (run_keeps_guard_invariant schedule _ Hinv0) as Hinv.
    unfold guard_invariant in Hinv.
    destruct (pending_step i fuel _ c Hi)
      as [(Hnone & _ & ->)|(Hheld & Hshared & ->)].
    + left. rewrite Hnone in Hinv. split; [exact Hinv|].
      apply list_lookup_insert_eq. eapply lookup_lt_Some, Hi.
    + right. rewrite Hheld in Hinv. split; [exact Hinv|].
      split; [exact Hshared|].
      apply list_lookup_insert_eq. eapply lookup_lt_Some, Hi.
Qed.

End ThreadFacts.

(** * The properties on the replayed robot *)

Section Runs.
Import Replay.

Local Abbreviation invoke_replay :=
  (invoke idle_ControlLoop idle_MotionGeneratorLoop MotionGeneratorLoop_mode).

(** The ways a session ends. *)
Example read_returns_after_false :
  read (below 2) 10 (handle false script)
  = (Returned tt,
     {| robot := {| control_mutex_ := false; impl_ := [JI 3] |}; captures := 3 |},
     [EvLock;
      EvIO (IoUpdate (Returned (JI 0))); EvIO (IoReadCallback 0 (Returned true));
      EvIO (IoUpdate (Returned (JI 1))); EvIO (IoReadCallback 1 (Returned true));
      EvIO (IoUpdate (Returned (CI 2))); EvIO (IoReadCallback 2 (Returned false));
      EvUnlock]).
Proof. reflexivity. Qed.

Example read_still_running :
  read (below 5) 1 (handle false script)
  = (Diverging,
     {| robot := {| control_mutex_ := true; impl_ := [JI 1; CI 2; JI 3] |};
        captures := 1 |},
     [EvLock;
      EvIO (IoUpdate (Returned (JI 0))); EvIO (IoReadCallback 0 (Returned true))]).
Proof. reflexivity. Qed.

Example read_ends_on_timeout :
  outcome (read (below 5) 10 (handle false script))
  = Thrown (NetworkException "timeout")
  /\ control_mutex_ (robot (final (read (below 5) 10 (handle false script))))
     = false.
Proof. split; reflexivity. Qed.

Example read_ends_on_callback_exception :
  read failing 10 (handle false script)
  = (Thrown (UserException "callback failed"),
     {| robot := {| control_mutex_ := false; impl_ := [JI 1; CI 2; JI 3] |};
        captures := 1 |},
     [EvLock;
      EvIO (IoUpdate (Returned (JI 0)));
      EvIO (IoReadCallback 0 (Thrown (UserException "callback failed")));
      EvUnlock]).
Proof. reflexivity. Qed.

Example mode_change_on_third_cycle :
  control_mode_read kJointImpedance (below 5) 10 (handle false script)
  = (Thrown (ControlException "Controller mode changed."),
     {| robot := {| control_mutex_ := false; impl_ := [JI 3] |}; captures := 2 |},
     [EvLock;
      EvIO (IoExecuteCommand
              (RI.SetControllerMode RI.SetControllerMode.kJointImpedance)
              (Returned tt));
      EvIO (IoUpdate (Returned (JI 0))); EvIO (IoReadCallback 0 (Returned true));
      EvIO (IoUpdate (Returned (JI 1))); EvIO (IoReadCallback 1 (Returned true));
      EvIO (IoUpdate (Returned (CI 2)));
      EvUnlock]).
Proof. reflexivity. Qed.

Example readOnce_returns_first_state :
  readOnce (handle false script)
  = (Returned 0,
     {| robot := {| control_mutex_ := false; impl_ := [JI 1; CI 2; JI 3] |};
        captures := 0 |},
     [EvLock; EvIO (IoReadOnce (Returned 0)); EvUnlock]).
Proof. reflexivity. Qed.

Lemma busy_handle_rejects_read_witness :
  control_mutex_ (robot (handle true script)) = true
  /\ invoke_replay (CallRead (below 2)) 10 (handle true script)
     = (Thrown (InvalidOperationException busy_message), handle true script, []).
Proof.
  split; [reflexivity|].
  apply (busy_handle_rejects_every_entry_point
           idle_ControlLoop idle_MotionGeneratorLoop MotionGeneratorLoop_mode
           (CallRead (below 2)) 10 (handle true script)).
  reflexivity.
Defined.

Lemma guard_released_after_control_fault_witness :
  control_mutex_ (robot (handle false script)) = false
  /\ ended (outcome (invoke_replay
                       (CallControlModeRead kJointImpedance (below 5)) 10
                       (handle false script))) = true
  /\ control_mutex_
       (robot (final (invoke_replay
                        (CallControlModeRead kJointImpedance (below 5)) 10
                        (handle false script)))) = false
  /\ count_events is_unlock
       (trace (invoke_replay (CallControlModeRead kJointImpedance (below 5)) 10
                             (handle false script))) = 1.
Proof.
  split; [reflexivity|]. split; [reflexivity|].
  destruct (guard_released_once_on_every_exit
              idle_ControlLoop idle_MotionGeneratorLoop MotionGeneratorLoop_mode
              (CallControlModeRead kJointImpedance (below 5)) 10
              (handle false script) eq_refl eq_refl)
    as (Hfree & _ & _ & Honce & _).
  split; [exact Hfree | exact Honce].
Defined.

Lemma mode_mismatch_ends_session_witness :
  1 <= 3
  /\ received (io_of (trace (control_mode_read kJointImpedance (below 5) 10
                                               (handle false script)))) !! (3 - 1)
     = Some (CI 2)
  /\ reported_as kJointImpedance (controller_mode (CI 2)) = false
  /\ outcome (control_mode_read kJointImpedance (below 5) 10
                                (handle false script))
     = Thrown (ControlException "Controller mode changed.")
  /\ length (received (io_of (trace (control_mode_read kJointImpedance (below 5)
                                       10 (handle false script))))) = 3.
Proof.
  split; [lia|]. split; [reflexivity|]. split; [reflexivity|].
  destruct (mode_mismatch_ends_session kJointImpedance (below 5) 10
              (handle false script) 3 (CI 2)) as (Hres & Hlen & _);
    [lia | reflexivity | reflexivity |].
  split; [exact Hres | exact Hlen].
Defined.

Lemma read_callback_only_sees_requested_mode_witness :
  io_of (trace (control_mode_read kJointImpedance (below 5) 10
                                  (handle false script))) !! 4
  = Some (IoReadCallback 1 (Returned true))
  /\ exists i raw,
      4 = S i
      /\ io_of (trace (control_mode_read kJointImpedance (below 5) 10
                                         (handle false script))) !! i
         = Some (IoUpdate (Returned raw))
      /\ 1 = convertRobotState raw
      /\ reported_as kJointImpedance (controller_mode raw) = true.
Proof.
  split; [reflexivity|].
  apply (read_callback_only_sees_requested_mode kJointImpedance (below 5) 10
           (handle false script) 4 1 (Returned true)).
  reflexivity.
Defined.


Lemma read_session_cycles_witness :
  control_mutex_ (robot (handle false script)) = false
  /\ cycles_run (read_cycle_step (below 2)) 10
       {| impl := script; user := 0 |}
       [IoUpdate (Returned (JI 0)); IoReadCallback 0 (Returned true);
        IoUpdate (Returned (JI 1)); IoReadCallback 1 (Returned true);
        IoUpdate (Returned (CI 2)); IoReadCallback 2 (Returned false)]
       (Returned tt)
       {| impl := [JI 3]; user := 3 |}
  /\ control_mutex_ (robot (final (read (below 2) 10 (handle false script))))
     = false
  /\ count_events is_outgoing
       (io_of (trace (read (below 2) 10 (handle false script)))) = 0.
Proof.
  split; [reflexivity|].
  destruct (read_session_cycles (below 2) 10 (handle false script) eq_refl)
    as (Hrun & Hmutex & _ & Hout & _).
  split; [exact Hrun|]. split; [exact Hmutex | exact Hout].
Defined.

Lemma unsupported_mode_sends_no_command_witness :
  kUnlisted 0 <> kJointImpedance
  /\ kUnlisted 0 <> kCartesianImpedance
  /\ control_mode_read (kUnlisted 0) (below 5) 10 (handle false script)
     = (Thrown (invalid_argument "Invalid controller mode given."),
        handle false script, [EvLock; EvUnlock]).
Proof.
  split; [discriminate|]. split; [discriminate|].
  destruct (unsupported_mode_sends_no_command (kUnlisted 0) (below 5) 10
              (handle false script)) as (_ & Hfree & _);
    [discriminate | discriminate |].
  apply Hfree. reflexivity.
Defined.

Lemma three_threads_one_session_witness :
  control_mutex_ (robot (handle false script)) = false
  /\ count_events is_active
       (threads (run_schedule idle_ControlLoop idle_MotionGeneratorLoop
                              MotionGeneratorLoop_mode
                              [(1, 0); (2, 0); (0, 0)]
                              (spawn (handle false script)
                                     [CallRead (below 2); CallReadOnce;
                                      CallRead (below 1)]))) = 1
  /\ count_events is_busy_failure
       (threads (run_schedule idle_ControlLoop idle_MotionGeneratorLoop
                              MotionGeneratorLoop_mode
                              [(1, 0); (2, 0); (0, 0)]
                              (spawn (handle false script)
                                     [CallRead (below 2); CallReadOnce;
                                      CallRead (below 1)]))) = 2.
Proof.
  split; [reflexivity|].
  destruct (one_session_at_any_instant
              idle_ControlLoop idle_MotionGeneratorLoop MotionGeneratorLoop_mode
              (handle false script)
              [CallRead (below 2); CallReadOnce; CallRead (below 1)] eq_refl)
    as (_ & Hfirst & _).
  destruct (Hfirst [(1, 0); (2, 0); (0, 0)]) as (Ha & Hb & _).
  - discriminate.
  - cbn. apply Permutation_sym.
    apply (Permutation_cons_app [1; 2] [] 0). reflexivity.
  - split; [exact Ha | exact Hb].
Defined.

(** Two calls of [readOnce] whose sessions do not overlap: thread 0 runs
    its session to the end before thread 1 executes [try_to_lock], and both
    calls return a state. *)
Example later_call_succeeds_after_release :
  threads (run_schedule idle_ControlLoop idle_MotionGeneratorLoop
                        MotionGeneratorLoop_mode
                        [(0, 0); (0, 0); (1, 0); (1, 0)]
                        (spawn (handle false script) [CallReadOnce; CallReadOnce]))
  = [Finished (Returned (Some 0)); Finished (Returned (Some 1))].
Proof. reflexivity. Qed.

(** Two overlapping calls of [read]: whichever executes [try_to_lock]
    first owns the mutex, the other has failed at once. *)
Example overlapping_reads :
  threads (run_schedule idle_ControlLoop idle_MotionGeneratorLoop
                        MotionGeneratorLoop_mode
                        [(1, 0); (0, 0)]
                        (spawn (handle false script)
                               [CallRead (below 5); CallRead (below 5)]))
  = [Finished (Thrown (InvalidOperationException busy_message));
     Active (CallRead (below 5))].
Proof. reflexivity. Qed.

(** Against C3 as stated: a handle in the middle of a read session, its
    mutex owned; [setJointImpedance] is not rejected, the request reaches
    [executeCommand] and the call returns. *)
Lemma configuration_accepted_during_session :
  outcome (read (below 5) 1 (handle false script)) = Diverging
  /\ control_mutex_ (robot mid_session) = true
  /\ configure (CallSetJointImpedance stiffness) mid_session
     = (Returned tt, mid_session,
        [EvIO (IoExecuteCommand (RI.SetJointImpedance stiffness) (Returned tt))])
  /\ outcome (configure (CallSetJointImpedance stiffness) mid_session)
     <> Thrown (InvalidOperationException busy_message).
Proof.
  split; [reflexivity|]. split; [reflexivity|]. split; [reflexivity|].
  discriminate.
Qed.

(** Against C5 as stated: on a handle whose mutex is owned the call with an
    unlisted mode throws the session-busy exception, not
    [std::invalid_argument]. *)
Lemma unsupported_mode_on_busy_handle :
  (kUnlisted 0 <> kJointImpedance /\ kUnlisted 0 <> kCartesianImpedance)
  /\ control_mode_read (kUnlisted 0) (below 5) 10 (handle true script)
     = (Thrown (InvalidOperationException busy_message), handle true script, [])
  /\ outcome (control_mode_read (kUnlisted 0) (below 5) 10 (handle true script))
     <> Thrown (invalid_argument "Invalid controller mode given.").
Proof.
  split; [split; discriminate|]. split; [reflexivity|]. discriminate.
Qed.


(** Against C8 as stated: two threads call [readOnce] on one handle; the
    session of the first has ended when the second executes [try_to_lock],
    which therefore takes the mutex: both attempts succeed and neither
    receives the session-busy exception, while at no instant two sessions
    were running. *)
Lemma two_attempts_both_succeed :
  control_mutex_ (robot (handle false script)) = false
  /\ threads (run_schedule idle_ControlLoop idle_MotionGeneratorLoop
                           MotionGeneratorLoop_mode
                           [(0, 0); (0, 0); (1, 0)]
                           (spawn (handle false script)
                                  [CallReadOnce; CallReadOnce]))
     = [Finished (Returned (Some 0)); Active CallReadOnce]
  /\ count_events is_busy_failure
       (threads (run_schedule idle_ControlLoop idle_MotionGeneratorLoop
                              MotionGeneratorLoop_mode
                              [(0, 0); (0, 0); (1, 0)]
                              (spawn (handle false script)
                                     [CallReadOnce; CallReadOnce]))) = 0
  /\ count_events is_busy_failure
       (threads (run_schedule idle_ControlLoop idle_MotionGeneratorLoop
                              MotionGeneratorLoop_mode
                              [(0, 0); (0, 0); (1, 0)]
                              (spawn (handle false script)
                                     [CallReadOnce; CallReadOnce])))
     <> length [CallReadOnce; CallReadOnce] - 1.
Proof.
  split; [reflexivity|]. split; [reflexivity|]. split; [reflexivity|].
  discriminate.
Qed.

End Runs.

(** * Further properties of the handle *)

(** ** Calls that end a loop *)

Section MoreLoopFacts.
Context `{Platform}.

(** In a read loop a call that threw is the last event and its exception
    is the outcome; and an exception out of the loop is the one its last
    call threw. *)
Lemma read_loop_thrown (fuel : nat) (t : list IOEvent) (res : Result unit) :
  loop_trace read_cycle_trace fuel t res ->
  (forall j e x,
      t !! j = Some e -> threw e = Some x ->
      res = Thrown x /\ length t = S j)
  /\ (forall x, res = Thrown x ->
                exists pre e, t = pre ++ [e] /\ threw e = Some x).
Proof.
  intros Hl.
  induction Hl as [|fuel t Hc|fuel t x Hc|fuel t Hc|fuel t t' r0 Hc Hl IH].
  - split; [intros j e x Hj; discriminate | discriminate].
  - inversion Hc; subst. split; [|discriminate].
    intros j e x Hj Hx.
    destruct j as [|[|j]]; cbn in Hj; try discriminate;
      injection Hj as <-; discriminate.
  - inversion Hc; subst.
    + split.
      * intros j e y Hj Hy.
        destruct j as [|j]; cbn in Hj; [|discriminate].
        injection Hj as <-. cbn in Hy. injection Hy as <-. auto.
      * intros y Hy. injection Hy as <-. now exists [], (IoUpdate (Thrown x)).
    + split.
      * intros j e y Hj Hy.
        destruct j as [|[|j]]; cbn in Hj; try discriminate;
          injection Hj as <-; cbn in Hy; [discriminate|].
        injection Hy as <-. auto.
      * intros y Hy. injection Hy as <-.
        now exists [IoUpdate (Returned raw)],
                   (IoReadCallback (convertRobotState raw) (Thrown x)).
  - inversion Hc; subst; (split; [|discriminate]);
      intros j e x Hj Hx;
      destruct j as [|[|j]]; cbn in Hj; try discriminate;
      injection Hj as <-; discriminate.
  - destruct IH as [IHthrown IHfrom]. inversion Hc; subst. split.
    + intros j e x Hj Hx.
      destruct j as [|[|j]]; cbn in Hj.
      * injection Hj as <-. discriminate.
      * injection Hj as <-. discriminate.
      * destruct (IHthrown _ _ _ Hj Hx) as [-> Hlen]. cbn. now rewrite Hlen.
    + intros x Hx. destruct (IHfrom x Hx) as (pre & e & -> & He).
      exists ([IoUpdate (Returned raw);
               IoReadCallback (convertRobotState raw) (Returned true)] ++ pre), e.
      split; [now rewrite <- app_assoc | exact He].
Qed.

(** The loop of the mode-checked session: the same for calls that threw;
    an exception out of the loop is the one its last call threw, or the
    control exception after a state of another mode. *)
Lemma mode_loop_thrown (expected : RI.ControllerMode) (fuel : nat)
    (t : list IOEvent) (res : Result unit) :
  loop_trace (mode_cycle_trace expected) fuel t res ->
  (forall j e x,
      t !! j = Some e -> threw e = Some x ->
      res = Thrown x /\ length t = S j)
  /\ (forall x, res = Thrown x ->
        (exists pre e, t = pre ++ [e] /\ threw e = Some x)
        \/ (x = ControlException "Controller mode changed."
            /\ exists pre raw,
                t = pre ++ [IoUpdate (Returned raw)]
                /\ RI.ControllerMode_eqb (controller_mode raw) expected = false)).
Proof.
  intros Hl.
  induction Hl as [|fuel t Hc|fuel t x Hc|fuel t Hc|fuel t t' r0 Hc Hl IH].
  - split; [intros j e x Hj; discriminate | discriminate].
  - inversion Hc; subst. split; [|discriminate].
    intros j e x Hj Hx.
    destruct j as [|[|j]]; cbn in Hj; try discriminate;
      injection Hj as <-; discriminate.
  - inversion Hc; subst.
    + split.
      * intros j e y Hj Hy.
        destruct j as [|j]; cbn in Hj; [|discriminate].
        injection Hj as <-. cbn in Hy. injection Hy as <-. auto.
      * intros y Hy. injection Hy as <-. left.
        now exists [], (IoUpdate (Thrown x)).
    + split.
      * intros j e y Hj Hy.
        destruct j as [|j]; cbn in Hj; [|discriminate].
        injection Hj as <-. discriminate.
      * intros y Hy. injection Hy as <-. right. split; [reflexivity|].
        now exists [], raw.
    + split.
      * intros j e y Hj Hy.
        destruct j as [|[|j]]; cbn in Hj; try discriminate;
          injection Hj as <-; cbn in Hy; [discriminate|].
        injection Hy as <-. auto.
      * intros y Hy. injection Hy as <-. left.
        now exists [IoUpdate (Returned raw)],
                   (IoReadCallback (convertRobotState raw) (Thrown x)).
  - inversion Hc; subst; (split; [|discriminate]);
      intros j e x Hj Hx;
      destruct j as [|[|j]]; cbn in Hj; try discriminate;
      injection Hj as <-; discriminate.
  - destruct IH as [IHthrown IHfrom]. inversion Hc; subst. split.
    + intros j e x Hj Hx.
      destruct j as [|[|j]]; cbn in Hj.
      * injection Hj as <-. discriminate.
      * injection Hj as <-. discriminate.
      * destruct (IHthrown _ _ _ Hj Hx) as [-> Hlen]. cbn. now rewrite Hlen.
    + intros x Hx.
      destruct (IHfrom x Hx) as [(pre & e & -> & He)|(-> & pre & raw' & -> & Hbad)].
      * left.
        exists ([IoUpdate (Returned raw);
                 IoReadCallback (convertRobotState raw) (Returned true)] ++ pre), e.
        split; [now rewrite <- app_assoc | exact He].
      * right. split; [reflexivity|].
        exists ([IoUpdate (Returned raw);
                 IoReadCallback (convertRobotState raw) (Returned true)] ++ pre),
               raw'.
        split; [now rewrite <- app_assoc | exact Hbad].
Qed.

(** The loop of the mode-checked session sends nothing, calls the callback
    on the conversion of each received state of the requested mode, once
    and in order, and returns after the first answer [false]. *)
Lemma mode_loop_facts (m : ControllerMode) (expected : RI.ControllerMode)
    (fuel : nat) (t : list IOEvent) (res : Result unit) :
  (forall x, reported_as m x = RI.ControllerMode_eqb x expected) ->
  loop_trace (mode_cycle_trace expected) fuel t res ->
  count_events is_outgoing t = 0
  /\ observed t = map convertRobotState (matching m (received t))
  /\ forall j s,
      t !! j = Some (IoReadCallback s (Returned false)) ->
      res = Returned tt /\ length t = S j.
Proof.
  intros Hrep Hl.
  induction Hl as [|fuel t Hc|fuel t x Hc|fuel t Hc|fuel t t' r0 Hc Hl IH].
  - split; [reflexivity|]. split; [reflexivity|]. intros j s Hj. discriminate.
  - inversion Hc; subst. split; [reflexivity|]. split.
    + cbn. rewrite Hrep. now match goal with Hok : _ = true |- _ => rewrite Hok end.
    + intros j s Hj. destruct j as [|[|j]]; cbn in Hj; try discriminate. auto.
  - inversion Hc; subst; (split; [reflexivity|]); split;
      try (intros j s Hj; destruct j as [|[|j]]; cbn in Hj; discriminate);
      cbn; rewrite ?Hrep;
      try match goal with Hok : RI.ControllerMode_eqb _ _ = _ |- _ =>
                            rewrite Hok end; reflexivity.
  - inversion Hc; subst; (split; [reflexivity|]); split;
      try (intros j s Hj; destruct j as [|[|j]]; cbn in Hj; discriminate);
      cbn; rewrite ?Hrep;
      try match goal with Hok : RI.ControllerMode_eqb _ _ = _ |- _ =>
                            rewrite Hok end; reflexivity.
  - destruct IH as (IHout & IHobs & IHlast). inversion Hc; subst.
    split; [exact IHout|]. split.
    + cbn. rewrite Hrep.
      match goal with Hok : _ = true |- _ => rewrite Hok end.
      cbn. now rewrite IHobs.
    + intros j s Hj. destruct j as [|[|j]]; cbn in Hj; try discriminate.
      destruct (IHlast _ _ Hj) as [-> Hlen]. cbn. rewrite Hlen. auto.
Qed.

(** What a call of [control(ControllerMode, read_callback)] can be. *)
Lemma control_mode_read_cases (m : ControllerMode)
    (read_callback : ReadCallback) (fuel : nat) (w : World) :
  let run := control_mode_read m read_callback fuel w in
  (control_mutex_ (robot w) = true
   /\ run = (Thrown (InvalidOperationException busy_message), w, []))
  \/ (control_mutex_ (robot w) = false /\ mode_request m = None
      /\ io_of (trace run) = []
      /\ outcome run = Thrown (invalid_argument "Invalid controller mode given."))
  \/ (control_mutex_ (robot w) = false
      /\ exists sm r,
          mode_request m = Some sm
          /\ fst (Impl_executeCommand (RI.SetControllerMode sm)
                                      (impl_ (robot w))) = r
          /\ r <> Returned tt
          /\ io_of (trace run) = [IoExecuteCommand (RI.SetControllerMode sm) r]
          /\ outcome run = r)
  \/ (control_mutex_ (robot w) = false
      /\ exists sm expected rest,
          mode_request m = Some sm
          /\ (forall x, reported_as m x = RI.ControllerMode_eqb x expected)
          /\ io_of (trace run)
             = IoExecuteCommand (RI.SetControllerMode sm) (Returned tt) :: rest
          /\ loop_trace (mode_cycle_trace expected) fuel rest (outcome run)).
Proof.
  cbv zeta. unfold control_mode_read.
  destruct (control_mutex_ (robot w)) eqn:Hmutex.
  - left. split; [reflexivity|]. now apply with_control_mutex_busy.
  - right.
    destruct (with_control_mutex_io
                (modes <- select_mode m ;;
                 executeCommand (RI.SetControllerMode (fst modes)) ;;
                 while_true (mode_checked_cycle (snd modes) read_callback) fuel)
                w Hmutex) as [Hio Hout].
    rewrite Hio, Hout. clear Hio Hout.
    destruct m as [| |v]; cbn [mode_request].
    3: { left. repeat split; reflexivity. }
    all: right;
      unfold bind, select_mode, ret, executeCommand; cbn [fst snd impl user];
      destruct (Impl_executeCommand _ (impl_ (robot w))) as [[[]|x|] i] eqn:Hexec.
    all: try (left; split; [reflexivity|]; eexists _, _;
              split; [reflexivity|]; rewrite Hexec;
              split; [reflexivity|]; split; [discriminate|];
              split; reflexivity).
    all: right; split; [reflexivity|];
      match goal with
      | |- context [while_true (mode_checked_cycle ?em ?cb) ?f ?e'] =>
          pose proof (while_true_trace (mode_cycle_trace em)
                        (mode_checked_cycle em cb)
                        (mode_checked_cycle_shape em cb) f e') as Hl;
          destruct (while_true (mode_checked_cycle em cb) f e') as [[r2 e2] t2]
      end;
      unfold trace, outcome in *; cbn in *;
      eexists _, _, _; split; [reflexivity|];
      (split; [|split; [reflexivity | exact Hl]]);
      intros y; destruct y; reflexivity.
Qed.

End MoreLoopFacts.

(** ** More on the mode-checked session and on read sessions *)

Section MoreSessions.
Context `{Platform}.

Lemma mode_request_supported (m : ControllerMode) :
  mode_request m = None <-> supported m = false.
Proof. destruct m; cbn; split; congruence. Qed.

(** In [control(ControllerMode, read_callback)] a call of the callback
    that answers [false] is the last thing the session does, and the
    call returns normally ([break], lines 69-71). *)
Theorem mode_checked_session_returns_on_false (m : ControllerMode)
    (read_callback : ReadCallback) (fuel : nat) (w : World)
    (j : nat) (s : RobotState) :
  io_of (trace (control_mode_read m read_callback fuel w)) !! j
  = Some (IoReadCallback s (Returned false)) ->
  outcome (control_mode_read m read_callback fuel w) = Returned tt
  /\ length (io_of (trace (control_mode_read m read_callback fuel w))) = S j.
Proof.
  destruct (control_mode_read_cases m read_callback fuel w)
    as [[_ ->]|[(_ & _ & -> & _)|[(_ & sm & r & _ & _ & _ & -> & _)
       |(_ & sm & expected & rest & _ & Hrep & -> & Hloop)]]].
  - discriminate.
  - discriminate.
  - intros Hj. destruct j as [|j]; discriminate.
  - intros Hj. destruct j as [|j]; [discriminate|]. cbn in Hj.
    destruct (mode_loop_facts m expected _ _ _ Hrep Hloop) as (_ & _ & Hlast).
    destruct (Hlast _ _ Hj) as [-> Hlen]. cbn. now rewrite Hlen.
Qed.

(** The only command [control(ControllerMode, read_callback)] sends is the
    mode request: one command when the call took the mutex with a
    supported mode, none otherwise. *)
Theorem mode_checked_session_sends_only_the_mode_request (m : ControllerMode)
    (read_callback : ReadCallback) (fuel : nat) (w : World) :
  count_events is_outgoing
    (io_of (trace (control_mode_read m read_callback fuel w)))
  = (if negb (control_mutex_ (robot w)) && supported m then 1 else 0)
  /\ count_events is_set_controller_mode
       (io_of (trace (control_mode_read m read_callback fuel w)))
     = count_events is_outgoing
         (io_of (trace (control_mode_read m read_callback fuel w))).
Proof.
  destruct (control_mode_read_cases m read_callback fuel w)
    as [[Hmutex ->]|[(Hmutex & Hm & -> & _)|[(Hmutex & sm & r & Hm & _ & _ & -> & _)
       |(Hmutex & sm & expected & rest & Hm & Hrep & -> & Hloop)]]];
    rewrite Hmutex; cbn.
  - auto.
  - apply mode_request_supported in Hm. rewrite Hm. auto.
  - destruct m; cbn in *; try discriminate; auto.
  - destruct (mode_loop_facts m expected _ _ _ Hrep Hloop) as (Hout & _ & _).
    destruct (mismatch_ends_loop expected _ _ _
                (loop_trace_mono _ _ (mode_cycle_is_motion_cycle expected)
                                 _ _ _ Hloop)) as [Hset _].
    rewrite Hout, Hset. destruct m; cbn in *; try discriminate; auto.
Qed.

(** [control(ControllerMode, read_callback)] calls the callback on the
    conversion of every received state that reports the requested mode,
    once each and in the order received, and on nothing else. *)
Theorem mode_checked_callback_sees_every_matching_state (m : ControllerMode)
    (read_callback : ReadCallback) (fuel : nat) (w : World) :
  observed (io_of (trace (control_mode_read m read_callback fuel w)))
  = map convertRobotState
        (matching m
           (received (io_of (trace (control_mode_read m read_callback fuel w))))).
Proof.
  destruct (control_mode_read_cases m read_callback fuel w)
    as [[_ ->]|[(_ & _ & -> & _)|[(_ & sm & r & _ & _ & _ & -> & _)
       |(_ & sm & expected & rest & _ & Hrep & -> & Hloop)]]]; try reflexivity.
  cbn. now destruct (mode_loop_facts m expected _ _ _ Hrep Hloop) as (_ & -> & _).
Qed.

(** When the robot rejects the mode request, [control(ControllerMode,
    read_callback)] throws what [executeCommand] threw, receives no state,
    never calls the callback, and releases the mutex (lines 62-64). *)
Theorem rejected_mode_request_aborts_session (m : ControllerMode)
    (read_callback : ReadCallback) (fuel : nat) (w : World)
    (sm : RI.SetControllerMode.ControllerMode) (x : Exception) (i : Impl) :
  control_mutex_ (robot w) = false ->
  mode_request m = Some sm ->
  Impl_executeCommand (RI.SetControllerMode sm) (impl_ (robot w))
  = (Thrown x, i) ->
  control_mode_read m read_callback fuel w
  = (Thrown x,
     {| robot := {| control_mutex_ := false; impl_ := i |};
        captures := captures w |},
     [EvLock; EvIO (IoExecuteCommand (RI.SetControllerMode sm) (Thrown x));
      EvUnlock]).
Proof.
  intros Hfree Hsm Hexec. unfold control_mode_read.
  rewrite (with_control_mutex_free _ _ Hfree).
  destruct m as [| |v]; cbn in Hsm; try discriminate; injection Hsm as <-;
    unfold bind, select_mode, ret, executeCommand; cbn [fst snd impl user];
    rewrite Hexec; reflexivity.
Qed.

(** A call of [Impl::update] or of the predicate that throws inside
    [read] is the last thing the session does, and [read] throws that
    exception: nothing is swallowed or retried. *)
Theorem read_propagates_exceptions (read_callback : ReadCallback)
    (fuel : nat) (w : World) (j : nat) (e : IOEvent) (x : Exception) :
  io_of (trace (read read_callback fuel w)) !! j = Some e ->
  threw e = Some x ->
  outcome (read read_callback fuel w) = Thrown x
  /\ length (io_of (trace (read read_callback fuel w))) = S j.
Proof.
  unfold read. destruct (control_mutex_ (robot w)) eqn:Hmutex.
  - rewrite (with_control_mutex_io_busy _ _ Hmutex). discriminate.
  - destruct (with_control_mutex_io
                (while_true (read_cycle read_callback) fuel) w Hmutex)
      as [-> ->].
    pose proof (while_true_trace read_cycle_trace (read_cycle read_callback)
                  (read_cycle_shape read_callback) fuel
                  {| impl := impl_ (robot w); user := captures w |}) as Hloop.
    exact (proj1 (read_loop_thrown _ _ _ Hloop) j e x).
Qed.

(** The exceptions of [read]: on a handle whose mutex is free, whatever
    [read] throws was thrown by the last call it made, to [Impl::update]
    or to the predicate. *)
Theorem read_throws_only_what_its_calls_throw (read_callback : ReadCallback)
    (fuel : nat) (w : World) (x : Exception) :
  control_mutex_ (robot w) = false ->
  outcome (read read_callback fuel w) = Thrown x ->
  exists pre e,
    io_of (trace (read read_callback fuel w)) = pre ++ [e]
    /\ threw e = Some x
    /\ is_outgoing e = false.
Proof.
  intros Hmutex. unfold read.
  destruct (with_control_mutex_io
              (while_true (read_cycle read_callback) fuel) w Hmutex)
    as [-> ->].
  pose proof (while_true_trace read_cycle_trace (read_cycle read_callback)
                (read_cycle_shape read_callback) fuel
                {| impl := impl_ (robot w); user := captures w |}) as Hloop.
  intros Hx.
  destruct (proj2 (read_loop_thrown _ _ _ Hloop) x Hx) as (pre & e & Ht & He).
  exists pre, e. split; [exact Ht|]. split; [exact He|].
  destruct (read_loop_facts _ _ _ Hloop) as (Hout & _ & _).
  rewrite Ht, count_events_app in Hout. cbn in Hout.
  destruct (is_outgoing e); [lia | reflexivity].
Qed.

(** A call that throws inside [control(ControllerMode, read_callback)]
    (the mode request, [updateWithoutConversion], the callback) is the
    last thing the session does and its exception is the one thrown. *)
Theorem mode_checked_session_propagates_exceptions (m : ControllerMode)
    (read_callback : ReadCallback) (fuel : nat) (w : World)
    (j : nat) (e : IOEvent) (x : Exception) :
  io_of (trace (control_mode_read m read_callback fuel w)) !! j = Some e ->
  threw e = Some x ->
  outcome (control_mode_read m read_callback fuel w) = Thrown x
  /\ length (io_of (trace (control_mode_read m read_callback fuel w))) = S j.
Proof.
  destruct (control_mode_read_cases m read_callback fuel w)
    as [[_ ->]|[(_ & _ & -> & _)|[(_ & sm & r & _ & _ & _ & -> & ->)
       |(_ & sm & expected & rest & _ & Hrep & -> & Hloop)]]].
  - discriminate.
  - discriminate.
  - intros Hj Hx. destruct j as [|j]; [|discriminate].
    injection Hj as <-. destruct r as [[]|y|]; cbn in Hx; try discriminate.
    injection Hx as <-. auto.
  - intros Hj Hx. destruct j as [|j]; cbn in Hj.
    + injection Hj as <-. discriminate.
    + destruct (proj1 (mode_loop_thrown _ _ _ _ Hloop) _ _ _ Hj Hx)
        as [-> Hlen]. cbn. now rewrite Hlen.
Qed.

(** The exceptions of [control(ControllerMode, read_callback)]: the
    session-busy exception on a handle whose mutex is owned;
    [std::invalid_argument] for an unsupported mode; the control exception
    straight after a received state of another mode; and otherwise what the
    last call it made threw. *)
Theorem mode_checked_session_exception_sources (m : ControllerMode)
    (read_callback : ReadCallback) (fuel : nat) (w : World) (x : Exception) :
  outcome (control_mode_read m read_callback fuel w) = Thrown x ->
  (control_mutex_ (robot w) = true
   /\ x = InvalidOperationException busy_message)
  \/ (control_mutex_ (robot w) = false /\ supported m = false
      /\ x = invalid_argument "Invalid controller mode given.")
  \/ (x = ControlException "Controller mode changed."
      /\ exists pre raw,
          io_of (trace (control_mode_read m read_callback fuel w))
          = pre ++ [IoUpdate (Returned raw)]
          /\ reported_as m (controller_mode raw) = false)
  \/ (exists pre e,
         io_of (trace (control_mode_read m read_callback fuel w)) = pre ++ [e]
         /\ threw e = Some x).
Proof.
  destruct (control_mode_read_cases m read_callback fuel w)
    as [[Hmutex ->]|[(Hmutex & Hm & -> & ->)|[(_ & sm & r & _ & _ & _ & -> & ->)
       |(_ & sm & expected & rest & _ & Hrep & -> & Hloop)]]].
  - intros Hx. injection Hx as <-. auto.
  - intros Hx. injection Hx as <-. apply mode_request_supported in Hm. auto.
  - intros ->. right. right. right.
    now exists [], (IoExecuteCommand (RI.SetControllerMode sm) (Thrown x)).
  - intros Hx. right. right.
    destruct (proj2 (mode_loop_thrown _ _ _ _ Hloop) x Hx)
      as [(pre & e & -> & He)|(-> & pre & raw & -> & Hbad)].
    + right.
      now exists (IoExecuteCommand (RI.SetControllerMode sm) (Returned tt) :: pre), e.
    + left. split; [reflexivity|].
      exists (IoExecuteCommand (RI.SetControllerMode sm) (Returned tt) :: pre), raw.
      split; [reflexivity|]. now rewrite Hrep.
Qed.

End MoreSessions.

(** ** Calls one after the other *)

Section Composition.
Context `{Platform}.
Variable ControlLoop : Callback Torques -> nat -> Session unit.
Variable MotionGeneratorLoop2 :
  forall T : MotionGeneratorType,
    Callback Torques -> Callback (Motion T) -> nat -> Session unit.
Variable MotionGeneratorLoop1 :
  forall T : MotionGeneratorType,
    ControllerMode -> Callback (Motion T) -> nat -> Session unit.

Local Abbreviation invoke' :=
  (invoke ControlLoop MotionGeneratorLoop2 MotionGeneratorLoop1).
Local Abbreviation session_of' :=
  (session_of ControlLoop MotionGeneratorLoop2 MotionGeneratorLoop1).


(** While a call of an entry point is still inside its session, a call of
    any entry point made by another thread on the same handle, as it
    stands between two cycles of that session, is rejected as busy, and
    leaves the running session its mutex. *)
Theorem call_during_a_running_session_is_rejected
    (c1 c2 : EntryPoint) (fuel1 fuel2 : nat) (w : World) :
  control_mutex_ (robot w) = false ->
  outcome (invoke' c1 fuel1 w) = Diverging ->
  invoke' c2 fuel2 (final (invoke' c1 fuel1 w))
  = (Thrown (InvalidOperationException busy_message),
     final (invoke' c1 fuel1 w), [])
  /\ control_mutex_
       (robot (final (invoke' c2 fuel2 (final (invoke' c1 fuel1 w))))) = true.
Proof.
  intros Hfree Hrunning.
  assert (Hheld : control_mutex_ (robot (final (invoke' c1 fuel1 w))) = true).
  { revert Hrunning.
    rewrite invoke_session_of, (with_control_mutex_free _ _ Hfree).
    destruct (session_of' c1 fuel1 _) as [[res e] t].
    unfold outcome, final. destruct res; cbn; congruence. }
  rewrite (invoke_session_of _ _ _ c2), (with_control_mutex_busy _ _ Hheld).
  split; [reflexivity | exact Hheld].
Qed.

End Composition.

(** ** Configuration commands one after the other *)

Section ConfigurationSequences.
Context `{Platform}.

Lemma configure_run (c : ConfigurationCall) (w : World) :
  exists r i,
    Impl_executeCommand (request_of c) (impl_ (robot w)) = (r, i)
    /\ configure c w
       = (r,
          {| robot := {| control_mutex_ := control_mutex_ (robot w);
                         impl_ := i |};
             captures := captures w |},
          [EvIO (IoExecuteCommand (request_of c) r)]).
Proof.
  destruct (Impl_executeCommand (request_of c) (impl_ (robot w)))
    as [r i] eqn:Hexec.
  exists r, i. split; [reflexivity|].
  destruct c; cbn [configure request_of] in *;
    unfold setCollisionBehavior, setCollisionBehavior4, setJointImpedance,
           setCartesianImpedance, setGuidingMode, setK, setEE, setLoad,
           automaticErrorRecovery, on_impl, executeCommand; cbn;
    rewrite Hexec; reflexivity.
Qed.

(** However many configuration commands are called, and whether or not
    some of them throw: each request reaches [executeCommand], in the order
    of the calls; the mutex is never taken nor released, so a session that
    is running keeps it and a free handle stays free; and the callbacks'
    captures are not touched. *)
Theorem configuration_sequence_leaves_guard_alone
    (cs : list ConfigurationCall) (w : World) :
  length (fst (fst (configure_each cs w))) = length cs
  /\ requests (snd (configure_each cs w)) = map request_of cs
  /\ control_mutex_ (robot (snd (fst (configure_each cs w))))
     = control_mutex_ (robot w)
  /\ captures (snd (fst (configure_each cs w))) = captures w
  /\ count_events is_lock (snd (configure_each cs w)) = 0
  /\ count_events is_unlock (snd (configure_each cs w)) = 0.
Proof.
  revert w. induction cs as [|c cs IH]; intros w; cbn.
  - repeat split; reflexivity.
  - destruct (configure_run c w) as (r & i & _ & ->).
    specialize (IH {| robot := {| control_mutex_ := control_mutex_ (robot w);
                                 impl_ := i |};
                      captures := captures w |}).
    destruct (configure_each cs _) as [[rs w2] t2]. cbn in *.
    destruct IH as (Hlen & Hreq & Hmutex & Hcap & Hlock & Hunlock).
    repeat split; congruence.
Qed.

End ConfigurationSequences.

(** ** Handing the mutex over between threads *)

Section MoreThreadFacts.
Context `{Platform}.
Variable ControlLoop : Callback Torques -> nat -> Session unit.
Variable MotionGeneratorLoop2 :
  forall T : MotionGeneratorType,
    Callback Torques -> Callback (Motion T) -> nat -> Session unit.
Variable MotionGeneratorLoop1 :
  forall T : MotionGeneratorType,
    ControllerMode -> Callback (Motion T) -> nat -> Session unit.

Local Abbreviation step :=
  (thread_step ControlLoop MotionGeneratorLoop2 MotionGeneratorLoop1).
Local Abbreviation run :=
  (run_schedule ControlLoop MotionGeneratorLoop2 MotionGeneratorLoop1).

(** Under every interleaving of calls made on a handle whose mutex was
    free, the mutex is owned exactly while one thread is inside its
    session: it is never left owned with no session running, and never
    free while a session runs. *)
Theorem guard_owned_exactly_while_a_session_runs (w : World)
    (calls : list EntryPoint) (schedule : list (nat * nat)) :
  control_mutex_ (robot w) = false ->
  count_events is_active (threads (run schedule (spawn w calls)))
  = (if control_mutex_ (robot (shared (run schedule (spawn w calls))))
     then 1 else 0).
Proof.
  intros Hfree.
  apply (run_keeps_guard_invariant ControlLoop MotionGeneratorLoop2
           MotionGeneratorLoop1 schedule).
  unfold guard_invariant.
  destruct (spawn_counts w calls) as (_ & -> & _). cbn. now rewrite Hfree.
Qed.

(** When the thread inside a session moves and its session has ended, the
    mutex is released and the thread is finished with the outcome of its
    session; a call that had not started yet and moves next takes the
    mutex. *)
Theorem owner_hands_the_guard_over (s : System) (i j fuel fuel' : nat)
    (c c' : EntryPoint) :
  i <> j ->
  threads s !! i = Some (Active c) ->
  threads s !! j = Some (Pending c') ->
  ended (outcome (session_of ControlLoop MotionGeneratorLoop2
                             MotionGeneratorLoop1 c fuel
                             {| impl := impl_ (robot (shared s));
                                user := captures (shared s) |})) = true ->
  control_mutex_ (robot (shared (step i fuel s))) = false
  /\ threads (step i fuel s) !! i
     = Some (Finished
               (outcome (session_of ControlLoop MotionGeneratorLoop2
                                    MotionGeneratorLoop1 c fuel
                                    {| impl := impl_ (robot (shared s));
                                       user := captures (shared s) |})))
  /\ control_mutex_ (robot (shared (step j fuel' (step i fuel s)))) = true
  /\ threads (step j fuel' (step i fuel s)) !! j = Some (Active c').
Proof.
  intros Hij Hi Hj Hended.
  assert (Hstep : step i fuel s
                  = let '(res, e, _) :=
                      session_of ControlLoop MotionGeneratorLoop2
                                 MotionGeneratorLoop1 c fuel
                                 {| impl := impl_ (robot (shared s));
                                    user := captures (shared s) |} in
                    {| shared :=
                         {| robot := {| control_mutex_ := false; impl_ := impl e |};
                            captures := user e |};
                       threads := <[i := Finished res]> (threads s) |}).
  { unfold thread_step. rewrite Hi.
    destruct (session_of _ _ _ c fuel _) as [[res e] t].
    unfold outcome in Hended. cbn in Hended. now rewrite Hended. }
  destruct (session_of _ _ _ c fuel _) as [[res e] t].
  unfold outcome in *. cbn in *.
  rewrite Hstep. cbn.
  split; [reflexivity|].
  split; [apply list_lookup_insert_eq; eapply lookup_lt_Some, Hi|].
  assert (Hj' : <[i := Finished res]> (threads s) !! j = Some (Pending c'))
    by now rewrite list_lookup_insert_ne.
  unfold thread_step, try_to_lock. cbn. rewrite Hj'. cbn.
  split; [reflexivity|].
  apply list_lookup_insert_eq. eapply lookup_lt_Some, Hj'.
Qed.

End MoreThreadFacts.

(** ** Moves *)

Section MoveFacts.
Context `{Platform}.

Lemma count_events_insert_any {E : Type} (p : E -> bool) (l : list E)
    (i : nat) (x y : E) :
  l !! i = Some x ->
  count_events p (<[i := y]> l) + (if p x then 1 else 0)
  = count_events p l + (if p y then 1 else 0).
Proof.
  revert i. induction l as [|z l IH]; intros i Hi; [discriminate|].
  destruct i as [|i]; cbn in Hi.
  - injection Hi as ->. change (<[0 := y]> (x :: l)) with (y :: l).
    cbn [count_events]. lia.
  - specialize (IH i Hi).
    change (<[S i := y]> (z :: l)) with (z :: <[i := y]> l).
    cbn [count_events]. lia.
Qed.

(** Move assignment between two different objects whose mutexes are free
    returns; afterwards the target holds the implementation of the
    source, the [impl_] of the source is null, both mutexes are free, and
    no other object has changed. *)
Theorem move_assignment_transfers_impl (this other : nat) (mem : list Object)
    (t o : Object) :
  this <> other ->
  mem !! this = Some t ->
  mem !! other = Some o ->
  object_mutex t = false ->
  object_mutex o = false ->
  exists mem',
    move_assign this other mem = Some (Returned tt, mem')
    /\ mem' !! this
       = Some {| object_mutex := false; object_impl := object_impl o |}
    /\ mem' !! other = Some {| object_mutex := false; object_impl := None |}
    /\ length mem' = length mem
    /\ forall k, k <> this -> k <> other -> mem' !! k = mem !! k.
Proof.
  intros Hne Ht Ho Hmt Hmo. unfold move_assign. rewrite Ht, Ho, Hmt, Hmo.
  assert (Hneq : Nat.eqb other this = false) by (apply Nat.eqb_neq; congruence).
  rewrite Hneq. cbn [orb]. eexists. split; [reflexivity|].
  pose proof (lookup_lt_Some _ _ _ Ht) as Hlt.
  pose proof (lookup_lt_Some _ _ _ Ho) as Hlo.
  split; [apply list_lookup_insert_eq; now rewrite length_insert|].
  split.
  - rewrite list_lookup_insert_ne by congruence.
    now apply list_lookup_insert_eq.
  - split; [now rewrite !length_insert|].
    intros k Hkt Hko. now rewrite !list_lookup_insert_ne by congruence.
Qed.

(** Move construction from an object whose mutex is free returns the
    address of a new object that holds the implementation of the source
    under a free mutex, so that a session can be started on it; the
    [impl_] of the source is null and no other object has changed. *)
Theorem move_construction_transfers_impl (other : nat) (mem : list Object)
    (o : Object) :
  mem !! other = Some o ->
  object_mutex o = false ->
  exists mem',
    move_construct other mem = Some (Returned (length mem), mem')
    /\ mem' !! length mem
       = Some {| object_mutex := false; object_impl := object_impl o |}
    /\ mem' !! other = Some {| object_mutex := false; object_impl := None |}
    /\ length mem' = S (length mem)
    /\ (forall k, k <> other -> k < length mem -> mem' !! k = mem !! k)
    /\ (forall i, object_impl o = Some i ->
                  exists new, mem' !! length mem = Some new
                              /\ robot_of new
                                 = Some {| control_mutex_ := false; impl_ := i |}).
Proof.
  intros Ho Hmo. unfold move_construct. rewrite Ho, Hmo.
  eexists. split; [reflexivity|].
  pose proof (lookup_lt_Some _ _ _ Ho) as Hlo.
  assert (Hnew : (<[other := {| object_mutex := false; object_impl := None |}]> mem
                  ++ [{| object_mutex := false; object_impl := object_impl o |}])
                 !! length mem
                 = Some {| object_mutex := false; object_impl := object_impl o |}).
  { rewrite lookup_app_r by (rewrite length_insert; lia).
    rewrite length_insert. now replace (length mem - length mem) with 0 by lia. }
  split; [exact Hnew|]. split.
  - rewrite lookup_app_l by (rewrite length_insert; lia).
    now apply list_lookup_insert_eq.
  - split; [rewrite length_app, length_insert; cbn; lia|]. split.
    + intros k Hk Hlt. rewrite lookup_app_l by (rewrite length_insert; lia).
      now rewrite list_lookup_insert_ne by congruence.
    + intros i Hi. eexists. split; [exact Hnew|].
      unfold robot_of. cbn. now rewrite Hi.
Qed.

(** Moves never duplicate an implementation: whatever property of
    implementations one counts, move construction keeps the number of
    objects holding such an implementation, and move assignment does not
    raise it (the implementation the target held is destroyed). *)
Theorem moves_never_duplicate_an_impl (p : Impl -> bool) (mem : list Object) :
  (forall other r mem',
      move_construct other mem = Some (r, mem') ->
      count_events (owns p) mem' = count_events (owns p) mem)
  /\ (forall this other r mem',
         move_assign this other mem = Some (r, mem') ->
         count_events (owns p) mem' <= count_events (owns p) mem).
Proof.
  split.
  - intros other r mem'. unfold move_construct.
    destruct (mem !! other) as [o|] eqn:Ho; [|discriminate].
    destruct (object_mutex o); intros Hrun; injection Hrun as <- <-;
      [reflexivity|].
    rewrite count_events_app. cbn.
    pose proof (count_events_insert_any (owns p) mem other o
                  {| object_mutex := false; object_impl := None |} Ho) as Hc.
    cbn in Hc. unfold owns at 2. cbn. unfold owns at 2 in Hc.
    destruct (object_impl o) as [i|]; [destruct (p i)|]; lia.
  - intros this other r mem'. unfold move_assign.
    destruct (mem !! this) as [t|] eqn:Ht; [|discriminate].
    destruct (mem !! other) as [o|] eqn:Ho; [|discriminate].
    destruct (Nat.eqb other this) eqn:Heq;
      [intros Hrun; injection Hrun as <- <-; lia|].
    destruct (object_mutex t || object_mutex o);
      intros Hrun; injection Hrun as <- <-; [lia|].
    apply Nat.eqb_neq in Heq.
    pose proof (count_events_insert_any (owns p) mem other o
                  {| object_mutex := false; object_impl := None |} Ho) as Hc1.
    assert (Ht' : <[other := {| object_mutex := false; object_impl := None |}]> mem
                  !! this = Some t)
      by now rewrite list_lookup_insert_ne.
    pose proof (count_events_insert_any (owns p) _ this t
                  {| object_mutex := false; object_impl := object_impl o |} Ht')
      as Hc2.
    cbn in Hc1.
    change (owns p {| object_mutex := false; object_impl := object_impl o |})
      with (owns p o) in Hc2.
    destruct (owns p o), (owns p t); lia.
Qed.

Section WithLoops.
Variable ControlLoop : Callback Torques -> nat -> Session unit.
Variable MotionGeneratorLoop2 :
  forall T : MotionGeneratorType,
    Callback Torques -> Callback (Motion T) -> nat -> Session unit.
Variable MotionGeneratorLoop1 :
  forall T : MotionGeneratorType,
    ControllerMode -> Callback (Motion T) -> nat -> Session unit.

(** A handle cannot be moved while a session runs on it: with the object
    of a handle whose entry point has not ended, move construction from it
    and move assignment from it or to it wait, leaving every object as it
    is; they do not fail the way a second session does.  Assigning the
    object to itself returns at once even then. *)
Theorem move_waits_while_a_session_runs (c : EntryPoint) (fuel : nat)
    (w : World) (mem : list Object) (a b : nat) (o : Object) :
  control_mutex_ (robot w) = false ->
  outcome (invoke ControlLoop MotionGeneratorLoop2 MotionGeneratorLoop1
                  c fuel w) = Diverging ->
  mem !! a
  = Some (object_of
            (robot (final (invoke ControlLoop MotionGeneratorLoop2
                                  MotionGeneratorLoop1 c fuel w)))) ->
  mem !! b = Some o ->
  a <> b ->
  move_construct a mem = Some (Diverging, mem)
  /\ move_assign b a mem = Some (Diverging, mem)
  /\ move_assign a b mem = Some (Diverging, mem)
  /\ move_assign a a mem = Some (Returned tt, mem).
Proof.
  intros Hfree Hrunning Ha Hb Hab.
  assert (Hheld : control_mutex_
                    (robot (final (invoke ControlLoop MotionGeneratorLoop2
                                          MotionGeneratorLoop1 c fuel w)))
                  = true).
  { revert Hrunning.
    rewrite invoke_session_of, (with_control_mutex_free _ _ Hfree).
    destruct (session_of _ _ _ c fuel _) as [[res e] t].
    unfold outcome, final. destruct res; cbn; congruence. }
  assert (Hab' : Nat.eqb a b = false) by now apply Nat.eqb_neq.
  assert (Hba' : Nat.eqb b a = false) by (apply Nat.eqb_neq; congruence).
  unfold move_construct, move_assign.
  rewrite Ha, Hb, Nat.eqb_refl, Hab', Hba'. cbn. rewrite Hheld. cbn.
  rewrite orb_true_r. auto.
Qed.

End WithLoops.

End MoveFacts.

(** ** The further properties on the replayed robot *)

Section MoreRuns.
Import Replay.

Local Abbreviation invoke_replay :=
  (invoke idle_ControlLoop idle_MotionGeneratorLoop MotionGeneratorLoop_mode).

Lemma mode_checked_session_returns_on_false_witness :
  io_of (trace (control_mode_read kJointImpedance (below 1) 10
                                  (handle false script))) !! 4
  = Some (IoReadCallback 1 (Returned false))
  /\ outcome (control_mode_read kJointImpedance (below 1) 10
                                (handle false script)) = Returned tt
  /\ length (io_of (trace (control_mode_read kJointImpedance (below 1) 10
                                             (handle false script)))) = 5.
Proof.
  split; [reflexivity|].
  apply (mode_checked_session_returns_on_false kJointImpedance (below 1) 10
           (handle false script) 4 1).
  reflexivity.
Defined.

Lemma rejected_mode_request_aborts_session_witness :
  control_mutex_ (robot (Rejecting.handle false script)) = false
  /\ mode_request kJointImpedance = Some RI.SetControllerMode.kJointImpedance
  /\ control_mode_read kJointImpedance (Rejecting.below 5) 10
                       (Rejecting.handle false script)
     = (Thrown (CommandException "command rejected"),
        Rejecting.handle false script,
        [EvLock;
         EvIO (IoExecuteCommand
                 (RI.SetControllerMode RI.SetControllerMode.kJointImpedance)
                 (Thrown (CommandException "command rejected")));
         EvUnlock]).
Proof.
  split; [reflexivity|]. split; [reflexivity|].
  apply (rejected_mode_request_aborts_session kJointImpedance
           (Rejecting.below 5) 10 (Rejecting.handle false script)
           RI.SetControllerMode.kJointImpedance
           (CommandException "command rejected") script);
    reflexivity.
Defined.

Lemma read_propagates_exceptions_witness :
  io_of (trace (read failing 10 (handle false script))) !! 1
  = Some (IoReadCallback 0 (Thrown (UserException "callback failed")))
  /\ outcome (read failing 10 (handle false script))
     = Thrown (UserException "callback failed")
  /\ length (io_of (trace (read failing 10 (handle false script)))) = 2.
Proof.
  split; [reflexivity|].
  apply (read_propagates_exceptions (H := platform) failing 10 (handle false script) 1
           (IoReadCallback (H := platform) 0
                           (Thrown (UserException "callback failed")))
           (UserException "callback failed"));
    reflexivity.
Defined.

Lemma read_throws_only_what_its_calls_throw_witness :
  control_mutex_ (robot (handle false script)) = false
  /\ outcome (read (below 5) 10 (handle false script))
     = Thrown (NetworkException "timeout")
  /\ exists pre e,
      io_of (trace (read (below 5) 10 (handle false script))) = pre ++ [e]
      /\ threw e = Some (NetworkException "timeout")
      /\ is_outgoing e = false.
Proof.
  split; [reflexivity|]. split; [reflexivity|].
  apply (read_throws_only_what_its_calls_throw (below 5) 10
           (handle false script) (NetworkException "timeout"));
    reflexivity.
Defined.

Lemma mode_checked_session_propagates_exceptions_witness :
  io_of (trace (control_mode_read kJointImpedance failing 10
                                  (handle false script))) !! 2
  = Some (IoReadCallback 0 (Thrown (UserException "callback failed")))
  /\ outcome (control_mode_read kJointImpedance failing 10
                                (handle false script))
     = Thrown (UserException "callback failed").
Proof.
  split; [reflexivity|].
  apply (mode_checked_session_propagates_exceptions (H := platform)
           kJointImpedance failing 10
           (handle false script) 2
           (IoReadCallback (H := platform) 0
                           (Thrown (UserException "callback failed")))
           (UserException "callback failed"));
    reflexivity.
Defined.

Lemma mode_checked_session_exception_sources_witness :
  outcome (control_mode_read kJointImpedance (below 5) 10 (handle false script))
  = Thrown (ControlException "Controller mode changed.")
  /\ ((control_mutex_ (robot (handle false script)) = true
       /\ ControlException "Controller mode changed."
          = InvalidOperationException busy_message)
      \/ (control_mutex_ (robot (handle false script)) = false
          /\ supported kJointImpedance = false
          /\ ControlException "Controller mode changed."
             = invalid_argument "Invalid controller mode given.")
      \/ (ControlException "Controller mode changed."
          = ControlException "Controller mode changed."
          /\ exists pre raw,
              io_of (trace (control_mode_read kJointImpedance (below 5) 10
                                              (handle false script)))
              = pre ++ [IoUpdate (Returned raw)]
              /\ reported_as kJointImpedance (controller_mode raw) = false)
      \/ (exists pre e,
             io_of (trace (control_mode_read kJointImpedance (below 5) 10
                                             (handle false script)))
             = pre ++ [e]
             /\ threw e = Some (ControlException "Controller mode changed."))).
Proof.
  split; [reflexivity|].
  apply (mode_checked_session_exception_sources kJointImpedance (below 5) 10
           (handle false script) (ControlException "Controller mode changed.")).
  reflexivity.
Defined.


Lemma call_during_a_running_session_is_rejected_witness :
  control_mutex_ (robot (handle false script)) = false
  /\ outcome (invoke_replay (CallRead (below 5)) 1 (handle false script))
     = Diverging
  /\ invoke_replay CallReadOnce 0
       (final (invoke_replay (CallRead (below 5)) 1 (handle false script)))
     = (Thrown (InvalidOperationException busy_message),
        final (invoke_replay (CallRead (below 5)) 1 (handle false script)), []).
Proof.
  split; [reflexivity|]. split; [reflexivity|].
  destruct (call_during_a_running_session_is_rejected
              idle_ControlLoop idle_MotionGeneratorLoop MotionGeneratorLoop_mode
              (CallRead (below 5)) CallReadOnce 1 0 (handle false script)
              eq_refl eq_refl) as [Hrejected _].
  exact Hrejected.
Defined.

Lemma guard_owned_exactly_while_a_session_runs_witness :
  control_mutex_ (robot (handle false script)) = false
  /\ count_events is_active
       (threads (run_schedule idle_ControlLoop idle_MotionGeneratorLoop
                              MotionGeneratorLoop_mode
                              [(1, 0); (1, 5); (0, 0)]
                              (spawn (handle false script)
                                     [CallRead (below 2); CallReadOnce])))
     = (if control_mutex_
             (robot (shared (run_schedule idle_ControlLoop
                               idle_MotionGeneratorLoop MotionGeneratorLoop_mode
                               [(1, 0); (1, 5); (0, 0)]
                               (spawn (handle false script)
                                      [CallRead (below 2); CallReadOnce]))))
        then 1 else 0).
Proof.
  split; [reflexivity|].
  apply (guard_owned_exactly_while_a_session_runs
           idle_ControlLoop idle_MotionGeneratorLoop MotionGeneratorLoop_mode
           (handle false script) [CallRead (below 2); CallReadOnce]
           [(1, 0); (1, 5); (0, 0)]).
  reflexivity.
Defined.

Lemma owner_hands_the_guard_over_witness :
  threads (thread_step idle_ControlLoop idle_MotionGeneratorLoop
                       MotionGeneratorLoop_mode 1 3
             (thread_step idle_ControlLoop idle_MotionGeneratorLoop
                          MotionGeneratorLoop_mode 0 3
                (thread_step idle_ControlLoop idle_MotionGeneratorLoop
                             MotionGeneratorLoop_mode 0 0
                   (spawn (handle false script)
                          [CallReadOnce; CallRead (below 2)])))) !! 1
  = Some (Active (CallRead (below 2))).
Proof.
  destruct (owner_hands_the_guard_over
              idle_ControlLoop idle_MotionGeneratorLoop MotionGeneratorLoop_mode
              (thread_step idle_ControlLoop idle_MotionGeneratorLoop
                           MotionGeneratorLoop_mode 0 0
                 (spawn (handle false script)
                        [CallReadOnce; CallRead (below 2)]))
              0 1 3 3 CallReadOnce (CallRead (below 2)))
    as (_ & _ & _ & Hnext);
    [discriminate | reflexivity | reflexivity | reflexivity |].
  exact Hnext.
Defined.

Lemma move_assignment_transfers_impl_witness :
  exists mem',
    move_assign 0 1 [object_of (robot (handle false script));
                     object_of (robot (handle false [JI 7]))]
    = Some (Returned tt, mem')
    /\ mem' !! 0 = Some {| object_mutex := false; object_impl := Some [JI 7] |}
    /\ mem' !! 1 = Some {| object_mutex := false; object_impl := None |}.
Proof.
  destruct (move_assignment_transfers_impl 0 1
              [object_of (robot (handle false script));
               object_of (robot (handle false [JI 7]))]
              (object_of (robot (handle false script)))
              (object_of (robot (handle false [JI 7]))))
    as (mem' & Hrun & Hthis & Hother & _);
    [discriminate | reflexivity | reflexivity | reflexivity | reflexivity |].
  exists mem'. auto.
Defined.

Lemma move_construction_transfers_impl_witness :
  exists mem',
    move_construct 0 [object_of (robot (handle false script))]
    = Some (Returned 1, mem')
    /\ mem' !! 1 = Some {| object_mutex := false; object_impl := Some script |}
    /\ mem' !! 0 = Some {| object_mutex := false; object_impl := None |}.
Proof.
  destruct (move_construction_transfers_impl 0
              [object_of (robot (handle false script))]
              (object_of (robot (handle false script))) eq_refl eq_refl)
    as (mem' & Hrun & Hnew & Hother & _).
  exists mem'. auto.
Defined.

Lemma moves_never_duplicate_an_impl_witness :
  count_events (owns (fun _ => true))
    [{| object_mutex := false; object_impl := Some [JI 7] |};
     {| object_mutex := false; object_impl := None |}]
  <= count_events (owns (fun _ => true))
       [object_of (robot (handle false script));
        object_of (robot (handle false [JI 7]))].
Proof.
  apply (proj2 (moves_never_duplicate_an_impl (fun _ => true)
                  [object_of (robot (handle false script));
                   object_of (robot (handle false [JI 7]))])
               0 1 (Returned tt)).
  reflexivity.
Defined.

Lemma move_waits_while_a_session_runs_witness :
  move_construct 0
    [object_of (robot (final (invoke_replay (CallRead (below 5)) 1
                                            (handle false script))));
     object_of (robot (handle false [JI 7]))]
  = Some (Diverging,
          [object_of (robot (final (invoke_replay (CallRead (below 5)) 1
                                                  (handle false script))));
           object_of (robot (handle false [JI 7]))]).
Proof.
  destruct (move_waits_while_a_session_runs
              idle_ControlLoop idle_MotionGeneratorLoop MotionGeneratorLoop_mode
              (CallRead (below 5)) 1 (handle false script)
              [object_of (robot (final (invoke_replay (CallRead (below 5)) 1
                                                      (handle false script))));
               object_of (robot (handle false [JI 7]))]
              0 1 (object_of (robot (handle false [JI 7]))))
    as (Hwait & _);
    [reflexivity | reflexivity | reflexivity | reflexivity | discriminate |].
  exact Hwait.
Defined.

End MoreRuns.
